(** * Datavid Celebration Planner: the member service of [main.py]

    A shallow embedding of the date engine, the validator, the store and the
    request handlers of [main.py], and the properties of its specification.

    Conventions of the embedding.
    - A Python [int] is a [Z].  A Python [str] is a [string] holding one
      character per code point; the development covers text whose code
      points are below 256, where the decimal digits are exactly ["0"] to
      ["9"].
    - A call that may raise returns a [result]: [Ok v] or [Raise e].
    - [date.today()] and [datetime.now()] read the clock; the handlers take
      the value read as an argument ([today], [now]).
    - The table [members] is the list of its rows in rowid order, with the
      counter that AUTOINCREMENT keeps.
    - Lines printed by [send_birthday_email] are returned next to its
      result.  The [[DEBUG]] prints are diagnostics and are left out. *)

From Stdlib Require Import ZArith Lia String Ascii List Sorted Permutation DecimalString.
From stdpp Require Import gmap strings list.

Local Open Scope Z_scope.

(** ** Exceptions and results *)

Inductive exn : Type :=
| ValueError (msg : string)
| IntegrityError (msg : string)
| HTTPException (status_code : Z) (detail : string)
| RequestValidationError (errors : list (list string * string)).

Inductive result (A : Type) : Type :=
| Ok (a : A)
| Raise (e : exn).
Arguments Ok {A} a.
Arguments Raise {A} e.

#[global] Instance result_ret : MRet result := fun A a => Ok a.
#[global] Instance result_bind : MBind result := fun A B f m =>
  match m with
  | Ok a => f a
  | Raise e => Raise e
  end.

(** [str(n)] for an [int]. *)
Definition str (n : Z) : string := NilZero.string_of_int (Z.to_int n).

(** [s in t] on text. *)
Definition contains (t s : string) : Prop := exists p q, t = p +:+ s +:+ q.

(** ** [datetime.date] (CPython, [Lib/_pydatetime.py]) *)

Module datetime.

Definition MINYEAR : Z := 1.
Definition MAXYEAR : Z := 9999.

Definition _DAYS_IN_MONTH : list Z :=
  [-1; 31; 28; 31; 30; 31; 30; 31; 31; 30; 31; 30; 31].

(** The loop that fills [_DAYS_BEFORE_MONTH]: each month's entry is the sum
    of the lengths of the months before it. *)
Fixpoint _fill_days_before (dims : list Z) (dbm : Z) : list Z :=
  match dims with
  | [] => []
  | dim :: rest => dbm :: _fill_days_before rest (dbm + dim)
  end.

Definition _DAYS_BEFORE_MONTH : list Z :=
  Eval cbv in (-1) :: _fill_days_before (tl _DAYS_IN_MONTH) 0.

Definition _is_leap (year : Z) : bool :=
  (year mod 4 =? 0) && (negb (year mod 100 =? 0) || (year mod 400 =? 0)).

Definition _days_before_year (year : Z) : Z :=
  let y := year - 1 in
  y * 365 + y / 4 - y / 100 + y / 400.

Definition _days_in_month (year month : Z) : Z :=
  if (month =? 2) && _is_leap year then 29
  else nth (Z.to_nat month) _DAYS_IN_MONTH 0.

Definition _days_before_month (year month : Z) : Z :=
  nth (Z.to_nat month) _DAYS_BEFORE_MONTH 0
  + (if (month >? 2) && _is_leap year then 1 else 0).

Definition _ymd2ord (year month day : Z) : Z :=
  _days_before_year year + _days_before_month year month + day.

Record date : Type := mkdate { year : Z; month : Z; day : Z }.

(** [date(year, month, day)]: the constructor checks the fields. *)
Definition date_new (y m d : Z) : result date :=
  if negb ((MINYEAR <=? y) && (y <=? MAXYEAR))
  then Raise (ValueError ("year " +:+ str y +:+ " is out of range"))
  else if negb ((1 <=? m) && (m <=? 12))
  then Raise (ValueError "month must be in 1..12")
  else if negb ((1 <=? d) && (d <=? _days_in_month y m))
  then Raise (ValueError "day is out of range for month")
  else Ok (mkdate y m d).

(** The values of type [date]: those the constructor yields. *)
Definition date_ok (d : date) : Prop :=
  date_new (year d) (month d) (day d) = Ok d.

Definition toordinal (d : date) : Z := _ymd2ord (year d) (month d) (day d).

(** Tuples compare lexicographically. *)
Definition pair_lt (a b : Z * Z) : bool :=
  (fst a <? fst b) || ((fst a =? fst b) && (snd a <? snd b)).

(** [a < b] on dates compares [(year, month, day)]. *)
Definition date_lt (a b : date) : bool :=
  (year a <? year b)
  || ((year a =? year b) && pair_lt (month a, day a) (month b, day b)).

(** [(a - b).days] *)
Definition date_sub_days (a b : date) : Z := toordinal a - toordinal b.

(** *** [datetime.strptime(s, '%Y-%m-%d')] (CPython, [Lib/_strptime.py])

    The format compiles to the regular expression
    [(?P<Y>\d\d\d\d)-(?P<m>1[0-2]|0[1-9]|[1-9])-(?P<d>3[0-1]|[1-2]\d|0[1-9]|[1-9]| [1-9])],
    matched at the start of the text; the match must then cover the whole
    text.  Each directive below takes the text and the continuation that
    matches the rest of the expression, so the alternatives are tried in
    order with backtracking, the way the matcher tries them. *)

Definition between (lo hi c : ascii) : bool :=
  ((nat_of_ascii lo <=? nat_of_ascii c) && (nat_of_ascii c <=? nat_of_ascii hi))%nat.

Definition is_digit (c : ascii) : bool := between "0" "9" c.

Definition digit_value (c : ascii) : Z := Z.of_nat (nat_of_ascii c) - 48.

(** [int(s)] on a text of digits, where a leading space is skipped. *)
Fixpoint int_digits (acc : Z) (s : string) : Z :=
  match s with
  | EmptyString => acc
  | String c r =>
      if is_digit c then int_digits (10 * acc + digit_value c) r
      else int_digits acc r
  end.
Definition int (s : string) : Z := int_digits 0 s.

Definition orelse {A} (x y : option A) : option A :=
  match x with
  | Some _ => x
  | None => y
  end.

(** Two characters [a b] with [a] in [[lo1-hi1]] and [b] in [[lo2-hi2]]. *)
Definition two {A} (lo1 hi1 lo2 hi2 : ascii) (s : string)
    (k : Z -> string -> option A) : option A :=
  match s with
  | String a (String b r) =>
      if between lo1 hi1 a && between lo2 hi2 b
      then k (int (String a (String b EmptyString))) r
      else None
  | _ => None
  end.

(** One character in [[lo-hi]]. *)
Definition one {A} (lo hi : ascii) (s : string)
    (k : Z -> string -> option A) : option A :=
  match s with
  | String a r =>
      if between lo hi a then k (int (String a EmptyString)) r else None
  | _ => None
  end.

Definition re_lit {A} (c : ascii) (s : string) (k : string -> option A)
    : option A :=
  match s with
  | String a r => if Ascii.eqb a c then k r else None
  | _ => None
  end.

(** [%Y]: [\d\d\d\d] *)
Definition re_Y {A} (s : string) (k : Z -> string -> option A) : option A :=
  match s with
  | String a (String b (String c (String d r))) =>
      if is_digit a && is_digit b && is_digit c && is_digit d
      then k (int (String a (String b (String c (String d EmptyString))))) r
      else None
  | _ => None
  end.

(** [%m]: [1[0-2]|0[1-9]|[1-9]] *)
Definition re_m {A} (s : string) (k : Z -> string -> option A) : option A :=
  orelse (two "1" "1" "0" "2" s k)
 (orelse (two "0" "0" "1" "9" s k)
         (one "1" "9" s k)).

(** [%d]: [3[0-1]|[1-2]\d|0[1-9]|[1-9]| [1-9]] *)
Definition re_d {A} (s : string) (k : Z -> string -> option A) : option A :=
  orelse (two "3" "3" "0" "1" s k)
 (orelse (two "1" "2" "0" "9" s k)
 (orelse (two "0" "0" "1" "9" s k)
 (orelse (one "1" "9" s k)
         (two " " " " "1" "9" s k)))).

(** The match of the whole expression: the fields and the text left. *)
Definition format_regex_match (s : string) : option (Z * Z * Z * string) :=
  re_Y s (fun y s =>
  re_lit "-" s (fun s =>
  re_m s (fun m s =>
  re_lit "-" s (fun s =>
  re_d s (fun d s => Some (y, m, d, s)))))).

(** [datetime.strptime(s, '%Y-%m-%d').date()].  No caller reads the text
    of the two errors of the matcher, which is shortened here. *)
Definition strptime_date (s : string) : result date :=
  match format_regex_match s with
  | None => Raise (ValueError "time data does not match format")
  | Some (y, m, d, rest) =>
      if String.eqb rest "" then date_new y m d
      else Raise (ValueError "unconverted data remains")
  end.

End datetime.

Import datetime.

(** ** [calculate_days_until_birthday] *)

Definition calculate_days_until_birthday (today : date)
    (birth_date_str : string) : result Z :=
  birth ← strptime_date birth_date_str;
  next_birthday ← date_new (year today) (month birth) (day birth);
  next_birthday ←
    (if date_lt next_birthday today
     then date_new (year today + 1) (month birth) (day birth)
     else Ok next_birthday);
  Ok (date_sub_days next_birthday today).

(** ** Text *)

Definition nl : string := String (ascii_of_nat 10) "".

(** [sep.join(parts)] *)
Definition join (sep : string) (parts : list string) : string :=
  String.concat sep parts.

(** [c.lower()] on a code point below 256: the capital letters of ASCII
    and of Latin-1 (all of U+00C0..U+00DE but the multiplication sign)
    move up by 32. *)
Definition lower_char (c : ascii) : ascii :=
  let n := nat_of_ascii c in
  if ((65 <=? n) && (n <=? 90)
      || (192 <=? n) && (n <=? 222) && negb (n =? 215))%nat
  then ascii_of_nat (n + 32)
  else c.

Fixpoint lower (s : string) : string :=
  match s with
  | EmptyString => EmptyString
  | String c r => String (lower_char c) (lower r)
  end.

(** [c.isspace()] on a code point below 256. *)
Definition isspace (c : ascii) : bool :=
  let n := nat_of_ascii c in
  ((9 <=? n) && (n <=? 13) || (28 <=? n) && (n <=? 32)
   || (n =? 133) || (n =? 160))%nat.

Fixpoint lstrip (s : string) : string :=
  match s with
  | EmptyString => EmptyString
  | String c r => if isspace c then lstrip r else s
  end.

Fixpoint rstrip (s : string) : string :=
  match s with
  | EmptyString => EmptyString
  | String c r =>
      match rstrip r with
      | EmptyString => if isspace c then EmptyString else String c EmptyString
      | r' => String c r'
      end
  end.

Definition strip (s : string) : string := rstrip (lstrip s).

(** ** The reference table *)

Definition COUNTRY_LANGUAGES : gmap string string :=
  {[ "USA" := "en"; "UK" := "en"; "Canada" := "en"; "Australia" := "en";
     "Germany" := "de"; "Japan" := "ja"; "Brazil" := "pt"; "India" := "hi" ]}.

(** [d.get(k, dflt)] *)
Definition get {V} (d : gmap string V) (k : string) (dflt : V) : V :=
  default dflt (d !! k).

(** ** JSON values

    What [json.loads] gives for the body of a request: [None], a [bool],
    a number, a [str], a [list], or a [dict]. *)

Local Unset Elimination Schemes.

Inductive json : Type :=
| JNull
| JBool (b : bool)
| JNumber (literal : string)
| JString (s : string)
| JArray (items : list json)
| JObject (members : list (string * json)).

Local Set Elimination Schemes.

(** ** The model [Member] and its validator *)

Module Member.

Record t : Type := mk {
  first_name : string;
  last_name : string;
  birth_date : string;
  country : string;
  city : string
}.

(** The expression bound to [age]: a comparison counts as 1 when true. *)
Definition age (today birth : date) : Z :=
  year today - year birth
  - (if pair_lt (month today, day today) (month birth, day birth)
     then 1 else 0).

Definition validate_birth_date (today : date) (v : string) : result string :=
  match strptime_date v with
  | Raise (ValueError _) =>
      Raise (ValueError "Birth date must be in YYYY-MM-DD format")
  | Raise e => Raise e
  | Ok birth =>
      let age := age today birth in
      if age <? 18
      then Raise (ValueError
             ("Member must be at least 18 years old. Current age would be "
              +:+ str age))
      else Ok v
  end.

(** Building the model from a request body whose five fields are text:
    the validator of [birth_date] runs, and its [ValueError] becomes one
    entry of the request's validation errors, at [body -> birth_date]. *)
Definition validate (today : date) (body : t) : result t :=
  match validate_birth_date today (birth_date body) with
  | Ok v => Ok (mk (first_name body) (last_name body) v
                   (country body) (city body))
  | Raise (ValueError msg) =>
      Raise (RequestValidationError
               [(["body"; "birth_date"], "Value error, " +:+ msg)])
  | Raise e => Raise e
  end.

(** Building the model from the dict of a JSON object (pydantic v2, as
    FastAPI calls it for the body parameter [member: Member]).  A field
    of type [str] whose key is missing gives the error [missing], and one
    whose value is not text the error [string_type]: no value is
    converted.  Keys that are no field of the model are ignored. *)
Definition str_field (body : gmap string json) (name : string)
    : result string :=
  match body !! name with
  | None =>
      Raise (RequestValidationError [(["body"; name], "Field required")])
  | Some (JString s) => Ok s
  | Some _ =>
      Raise (RequestValidationError
               [(["body"; name], "Input should be a valid string")])
  end.

(** The validator of [birth_date] runs on a value that is text. *)
Definition birth_date_field (today : date) (body : gmap string json)
    : result string :=
  v ← str_field body "birth_date";
  match validate_birth_date today v with
  | Ok v => Ok v
  | Raise (ValueError msg) =>
      Raise (RequestValidationError
               [(["body"; "birth_date"], "Value error, " +:+ msg)])
  | Raise e => Raise e
  end.

(** The errors a field adds to those of the request. *)
Definition line_errors (r : result string) : list (list string * string) :=
  match r with
  | Raise (RequestValidationError errors) => errors
  | _ => []
  end.

(** The fields are validated in the order of the class, and the errors
    of all of them are collected; an exception of a validator that is not
    a [ValueError] is not collected but raised as it is. *)
Definition model_validate (today : date) (body : gmap string json)
    : result t :=
  let first_name := str_field body "first_name" in
  let last_name := str_field body "last_name" in
  let birth_date := birth_date_field today body in
  let country := str_field body "country" in
  let city := str_field body "city" in
  match birth_date with
  | Raise (ValueError msg) => Raise (ValueError msg)
  | Raise (IntegrityError msg) => Raise (IntegrityError msg)
  | Raise (HTTPException status_code detail) =>
      Raise (HTTPException status_code detail)
  | _ =>
      match first_name, last_name, birth_date, country, city with
      | Ok f, Ok l, Ok b, Ok co, Ok ci => Ok (mk f l b co ci)
      | _, _, _, _, _ =>
          Raise (RequestValidationError
                   (line_errors first_name ++ line_errors last_name
                    ++ line_errors birth_date ++ line_errors country
                    ++ line_errors city))
      end
  end.

End Member.

(** ** The table [members] *)

Record Row : Type := mkRow {
  id : Z;
  first_name : string;
  last_name : string;
  birth_date : string;
  country : string;
  city : string;
  created_at : string
}.

(** The rows in rowid order, and the largest rowid ever given out, which
    AUTOINCREMENT keeps in [sqlite_sequence]. *)
Record Store : Type := mkStore {
  rows : list Row;
  sqlite_sequence : Z
}.

(** [init_db] on a fresh file. *)
Definition init_db : Store := mkStore [] 0.

(** [UNIQUE(first_name, last_name, country, city)] *)
Definition same_key (m : Member.t) (r : Row) : bool :=
  String.eqb (first_name r) (Member.first_name m)
  && String.eqb (last_name r) (Member.last_name m)
  && String.eqb (country r) (Member.country m)
  && String.eqb (city r) (Member.city m).

Definition max_rowid (rs : list Row) : Z := foldr Z.max 0 (map id rs).

(** The row an insert adds: AUTOINCREMENT gives it a rowid one above the
    largest ever used. *)
Definition new_row (st : Store) (m : Member.t) (now : string) : Row :=
  mkRow (Z.max (sqlite_sequence st) (max_rowid (rows st)) + 1)
    (Member.first_name m) (Member.last_name m) (Member.birth_date m)
    (Member.country m) (Member.city m) now.

(** [INSERT INTO members (...) VALUES (...)] followed by [commit]: the new
    rowid and the table after it, or [IntegrityError] and no change. *)
Definition INSERT (st : Store) (m : Member.t) (now : string)
    : result (Z * Store) :=
  if existsb (same_key m) (rows st)
  then Raise (IntegrityError
    "UNIQUE constraint failed: members.first_name, members.last_name, members.country, members.city")
  else
    let row := new_row st m now in
    Ok (id row, mkStore (rows st ++ [row]) (id row)).

(** [INSERT OR IGNORE]: a row that breaks the constraint is skipped.  The
    statement still ends well, and the rowid it had drawn for the row
    before the check stays used. *)
Definition INSERT_OR_IGNORE (st : Store) (m : Member.t) (now : string)
    : Store :=
  match INSERT st m now with
  | Ok (_, st') => st'
  | Raise _ => mkStore (rows st) (id (new_row st m now))
  end.

Definition sample_members : list Member.t :=
  [ Member.mk "John" "Smith" "1990-03-15" "USA" "New York";
    Member.mk "Emma" "Johnson" "1985-07-22" "UK" "London";
    Member.mk "Hans" "Mueller" "1992-11-08" "Germany" "Berlin";
    Member.mk "Yuki" "Tanaka" "1988-01-30" "Japan" "Tokyo";
    Member.mk "Sophie" "Martin" "1995-05-12" "Canada" "Toronto";
    Member.mk "Raj" "Patel" "1987-09-25" "India" "Mumbai" ].

(** [seed_data]; the clock is read once for each row, [clock i] is the
    reading for row [i]. *)
Fixpoint seed_from (clock : nat -> string) (i : nat) (ms : list Member.t)
    (st : Store) : Store :=
  match ms with
  | [] => st
  | m :: rest =>
      seed_from clock (S i) rest (INSERT_OR_IGNORE st m (clock i))
  end.

Definition seed_data (clock : nat -> string) (st : Store) : Store :=
  seed_from clock 0 sample_members st.

(** [SELECT * FROM members WHERE id = ?], [fetchone()] *)
Definition SELECT_by_id (st : Store) (member_id : Z) : option Row :=
  List.find (fun r => id r =? member_id) (rows st).

(** The integers of SQLite, of 64 bits with a sign: the ids [sqlite3]
    binds to the [?] of a query.  For an [int] outside this range
    [conn.execute] raises [OverflowError] and no query runs:
    [SELECT_by_id] is the query that runs for an id in this range. *)
Definition sqlite_integer (n : Z) : Prop := - 2 ^ 63 <= n < 2 ^ 63.

(** ** The handlers *)

(** [dict(row)] with the key [days_until_birthday] added. *)
Record member_dict : Type := mk_member_dict {
  row : Row;
  days_until_birthday : Z
}.

Module MemberResponse.
Record t : Type := mk {
  id : Z;
  first_name : string;
  last_name : string;
  birth_date : string;
  country : string;
  city : string;
  days_until_birthday : option Z
}.
End MemberResponse.

(** The dict [{"id": cursor.lastrowid, **member.model_dump()}]. *)
Record created : Type := mk_created {
  lastrowid : Z;
  model_dump : Member.t
}.

Definition create_member (now : string) (st : Store) (member : Member.t)
    : result created * Store :=
  let inner :=
    match INSERT st member now with
    | Ok (rowid, st') => (Ok (mk_created rowid member), st')
    | Raise (IntegrityError _) =>
        (Raise (HTTPException 400
           ("Member with name '" +:+ Member.first_name member +:+ " "
            +:+ Member.last_name member +:+ "' in " +:+ Member.city member
            +:+ ", " +:+ Member.country member +:+ " already exists")), st)
    | Raise e => (Raise e, st)
    end in
  match inner with
  | (Raise (ValueError msg), st') => (Raise (HTTPException 422 msg), st')
  | _ => inner
  end.

(** [members.sort(key=...)]: a stable sort; an element goes before the
    first element whose key is not smaller. *)
Fixpoint insert_by_key {A} (key : A -> Z) (x : A) (l : list A) : list A :=
  match l with
  | [] => [x]
  | y :: l' =>
      if key x <=? key y then x :: l else y :: insert_by_key key x l'
  end.

Definition sort_by_key {A} (key : A -> Z) (l : list A) : list A :=
  foldr (insert_by_key key) [] l.

(** The loop over the rows, appending to [members]. *)
Fixpoint for_row_in (today : date) (rs : list Row) (members : list member_dict)
    : result (list member_dict) :=
  match rs with
  | [] => Ok members
  | r :: rest =>
      days ← calculate_days_until_birthday today (birth_date r);
      for_row_in today rest (members ++ [mk_member_dict r days])
  end.

Definition list_members (today : date) (st : Store)
    (sort_by_birthday upcoming_only : bool) : result (list member_dict) :=
  members ← for_row_in today (rows st) [];
  let members :=
    if upcoming_only
    then filter (fun m => days_until_birthday m <= 30) members
    else members in
  let members :=
    if sort_by_birthday
    then sort_by_key days_until_birthday members
    else members in
  Ok members.

Definition get_member (today : date) (st : Store) (member_id : Z)
    : result member_dict :=
  match SELECT_by_id st member_id with
  | None => Raise (HTTPException 404 "Member not found")
  | Some r =>
      days ← calculate_days_until_birthday today (birth_date r);
      Ok (mk_member_dict r days)
  end.

(** *** The message generator *)

Inductive pyval : Type :=
| PStr (s : string)
| PInt (n : Z)
| PFloat (literal : string).

Record Explanation : Type := mk_explanation {
  model : string;
  method : string;
  parameters : gmap string pyval;
  rationale : string
}.

Module BirthdayMessage.
Record t : Type := mk {
  message : string;
  explanation : Explanation
}.
End BirthdayMessage.

(** What the call of the text-generation collaborator gives: the content
    of its first choice, or the text of the exception it raised. *)
Inductive completion : Type :=
| Content (text : string)
| Failed (text : string).

Section Generator.

(** The configuration read from the environment at start, and the
    collaborator, from the prompt to its answer. *)
Variable MOCK_AI : bool.
Variable OPENAI_API_KEY : string.
Variable ChatCompletion_create : string -> completion.

Definition tone_templates (member : Row) : gmap string string :=
  {[ "friendly" :=
       " Happy Birthday, " +:+ first_name member
       +:+ "! Wishing you an amazing day filled with joy and laughter from all of us at Datavid!";
     "formal" :=
       "Dear " +:+ first_name member +:+ " " +:+ last_name member
       +:+ ", On behalf of Datavid, we wish you a very happy birthday and continued success in the year ahead." ]}.

Definition generate_ai_message (member : Row) (tone : string)
    : result BirthdayMessage.t :=
  if MOCK_AI || String.eqb OPENAI_API_KEY "" then
    let message :=
      get (tone_templates member) tone (tone_templates member !!! "friendly") in
    let explanation :=
      mk_explanation "mock-generator-v1" "template_based_generation"
        {[ "tone" := PStr tone;
           "language" := PStr (get COUNTRY_LANGUAGES (country member) "en") ]}
        ("Generated using a rule-based template system with " +:+ tone
         +:+ " tone. "
         +:+ "Personalized with member's first name and considering cultural context from "
         +:+ country member +:+ ".") in
    Ok (BirthdayMessage.mk message explanation)
  else
    let lang := get COUNTRY_LANGUAGES (country member) "en" in
    let prompt :=
      "Generate a birthday message for a Datavid company member with these details:"
      +:+ nl +:+ "- Name: " +:+ first_name member +:+ " " +:+ last_name member
      +:+ nl +:+ "- Location: " +:+ city member +:+ ", " +:+ country member
      +:+ nl +:+ "- Tone: " +:+ tone
      +:+ nl +:+ "- Language preference: " +:+ lang
      +:+ nl +:+ nl
      +:+ "Create a warm, personal birthday message (2-3 sentences max) that reflects the specified tone." in
    match ChatCompletion_create prompt with
    | Content text =>
        let message := strip text in
        let explanation :=
          mk_explanation "gpt-3.5-turbo" "chat_completion"
            {[ "temperature" := PFloat "0.7";
               "tone" := PStr tone;
               "max_tokens" := PInt 150 ]}
            ("Generated using OpenAI GPT-3.5 with " +:+ tone
             +:+ " tone setting and temperature 0.7 for creative variation. "
             +:+ "Prompt included member's name, location ("
             +:+ country member
             +:+ "), and language preference to ensure cultural appropriateness.") in
        Ok (BirthdayMessage.mk message explanation)
    | Failed e =>
        Raise (HTTPException 500 ("AI generation failed: " +:+ e))
    end.

Definition generate_birthday_message (st : Store) (member_id : Z)
    (tone : string) : result BirthdayMessage.t :=
  match SELECT_by_id st member_id with
  | None => Raise (HTTPException 404 "Member not found")
  | Some r => generate_ai_message r tone
  end.

(** *** The simulated send *)

Record email_content : Type := mk_email {
  to : string;
  subject : string;
  body : string;
  dry_run : bool
}.

Record send_result : Type := mk_send_result {
  status : string;
  email : email_content;
  message : string
}.

(** The result and the lines printed. *)
Definition send_birthday_email (st : Store) (member_id : Z) (tone : string)
    (dry_run : bool) : result send_result * list string :=
  match SELECT_by_id st member_id with
  | None => (Raise (HTTPException 404 "Member not found"), [])
  | Some member_dict =>
      match generate_ai_message member_dict tone with
      | Raise e => (Raise e, [])
      | Ok birthday_msg =>
          let email_content :=
            mk_email
              (lower (first_name member_dict) +:+ "."
               +:+ lower (last_name member_dict) +:+ "@datavid.com")
              ("Happy Birthday, " +:+ first_name member_dict +:+ "!")
              (BirthdayMessage.message birthday_msg)
              dry_run in
          if dry_run then
            (Ok (mk_send_result "dry_run" email_content
                   "Email NOT sent (dry-run mode). Email content logged above."),
             [])
          else
            (Ok (mk_send_result "sent" email_content
                   "Email sent successfully (simulated)"),
             [ "[EMAIL] To: " +:+ to email_content;
               "[EMAIL] Subject: " +:+ subject email_content;
               "[EMAIL] Body: " +:+ body email_content ])
      end
  end.

(** *** The routes

    What the framework does around a handler: it fills the defaults of the
    query parameters, checks the declared constraints before the handler
    runs, and turns what the handler returns or raises into a response. *)

(** [pattern="^(friendly|formal)$"], matched by the validation library's
    own engine, where [$] is the end of the text: the pattern matches the
    two words and nothing else. *)
Definition tone_pattern (s : string) : bool :=
  String.eqb s "friendly" || String.eqb s "formal".

(** [tone: str = Query("friendly", pattern=...)] *)
Definition Query_tone (tone : option string) : result string :=
  match tone with
  | None => Ok "friendly"
  | Some v =>
      if tone_pattern v then Ok v
      else Raise (RequestValidationError
             [(["query"; "tone"],
               "String should match pattern '^(friendly|formal)$'")])
  end.

Definition POST_members (today : date) (now : string) (st : Store)
    (body : Member.t) : result created * Store :=
  match Member.validate today body with
  | Ok member => create_member now st member
  | Raise e => (Raise e, st)
  end.

(** The same route for a body that is any JSON object. *)
Definition POST_members_json (today : date) (now : string) (st : Store)
    (body : gmap string json) : result created * Store :=
  match Member.model_validate today body with
  | Ok member => create_member now st member
  | Raise e => (Raise e, st)
  end.

(** [response_model=List[MemberResponse]] keeps the fields of the model. *)
Definition to_MemberResponse (m : member_dict) : MemberResponse.t :=
  MemberResponse.mk (id (row m)) (first_name (row m)) (last_name (row m))
    (birth_date (row m)) (country (row m)) (city (row m))
    (Some (days_until_birthday m)).

Definition GET_members (today : date) (st : Store)
    (sort_by_birthday upcoming_only : option bool)
    : result (list MemberResponse.t) :=
  members ← list_members today st (default false sort_by_birthday)
              (default false upcoming_only);
  Ok (map to_MemberResponse members).

Definition POST_birthday_message (st : Store) (member_id : Z)
    (tone : option string) : result BirthdayMessage.t :=
  tone ← Query_tone tone;
  generate_birthday_message st member_id tone.

Definition POST_send_email (st : Store) (member_id : Z)
    (tone : option string) (dry_run : option bool)
    : result send_result * list string :=
  match Query_tone tone with
  | Raise e => (Raise e, [])
  | Ok tone => send_birthday_email st member_id tone (default true dry_run)
  end.

End Generator.

(** [validation_exception_handler] builds the detail of a 422 answer. *)
Definition validation_detail (errors : list (list string * string)) : string :=
  join " | "
    (map (fun error => join " -> " (fst error) +:+ ": " +:+ snd error) errors).

(** The answer the client gets. *)
Inductive Response (A : Type) : Type :=
| Reply (status_code : Z) (content : A)
| ErrorReply (status_code : Z) (detail : string)
| ServerError (e : exn).
Arguments Reply {A} status_code content.
Arguments ErrorReply {A} status_code detail.
Arguments ServerError {A} e.

(** An [HTTPException] is answered with its status and detail, a request
    validation error by [validation_exception_handler] with 422; any other
    exception is not handled and the server answers 500. *)
Definition respond {A} (success : Z) (r : result A) : Response A :=
  match r with
  | Ok a => Reply success a
  | Raise (HTTPException status_code detail) => ErrorReply status_code detail
  | Raise (RequestValidationError errors) =>
      ErrorReply 422 (validation_detail errors)
  | Raise e => ServerError e
  end.

Definition is_client_error {A} (r : Response A) : Prop :=
  match r with
  | ErrorReply status_code _ => 400 <= status_code < 500
  | _ => False
  end.

(** ** Requests in a row *)

(** Create requests served one after the other, each with the date and
    the time at which it arrives: the answers, and the table at the end. *)
Fixpoint POST_members_seq (reqs : list (date * string * Member.t))
    (st : Store) : list (result created) * Store :=
  match reqs with
  | [] => ([], st)
  | (today, now, body) :: rest =>
      let '(r, st1) := POST_members today now st body in
      let '(rs, st2) := POST_members_seq rest st1 in
      (r :: rs, st2)
  end.

(** The ids the successful answers carry, in the order of the answers. *)
Definition created_ids (rs : list (result created)) : list Z :=
  omap (fun r => match r with
                 | Ok c => Some (lastrowid c)
                 | Raise _ => None
                 end) rs.

(** ** Writing a date

    [d.strftime('%Y-%m-%d')], which the tests use to write the birth dates
    they pass: the year on four digits, the month and the day on two.  For
    a year below 1000 the platform decides whether [%Y] pads; the text
    below is the padded one, that of [d.isoformat()]. *)

(** [s.zfill(width)] on a text of digits. *)
Definition zfill (width : nat) (s : string) : string :=
  String.concat "" (repeat "0" (width - String.length s)) +:+ s.

Definition strftime_Ymd (d : date) : string :=
  zfill 4 (str (year d)) +:+ "-" +:+ zfill 2 (str (month d))
  +:+ "-" +:+ zfill 2 (str (day d)).

(** ** Predicates of the statements *)

(** The tuple the constraint of the table keeps unique. *)
Definition key_of (m : Member.t) : string * string * string * string :=
  (Member.first_name m, Member.last_name m, Member.country m, Member.city m).

Definition key_of_row (r : Row) : string * string * string * string :=
  (first_name r, last_name r, country r, city r).

(** A table as the operations leave it: the rows lie in the order of
    their ids, and no two rows have the same tuple. *)
Definition store_ok (st : Store) : Prop :=
  StronglySorted (fun a b => id a < id b) (rows st)
  /\ NoDup (map key_of_row (rows st)).

(** [m] is [dict(r)] with the days until the birthday computed for [r]. *)
Definition augments (today : date) (r : Row) (m : member_dict) : Prop :=
  row m = r
  /\ calculate_days_until_birthday today (birth_date r)
     = Ok (days_until_birthday m).

(** The order of the sort: by [days_until_birthday]. *)
Definition days_le (a b : member_dict) : Prop :=
  days_until_birthday a <= days_until_birthday b.

(** ** The strict date format of the specification *)



(** The strict reading of [YYYY-MM-DD], after the words of the
    specification: four digits, a dash, two digits, a dash, two digits,
    and nothing else; it yields the three numbers written. *)
Definition strict_YYYY_MM_DD (s : string) : option (Z * Z * Z) :=
  match s with
  | String y1 (String y2 (String y3 (String y4 (String s1
      (String m1 (String m2 (String s2 (String d1 (String d2
        EmptyString))))))))) =>
      if is_digit y1 && is_digit y2 && is_digit y3 && is_digit y4
         && Ascii.eqb s1 "-" && is_digit m1 && is_digit m2
         && Ascii.eqb s2 "-" && is_digit d1 && is_digit d2
      then Some (int (String y1 (String y2 (String y3 (String y4 EmptyString)))),
                 int (String m1 (String m2 EmptyString)),
                 int (String d1 (String d2 EmptyString)))
      else None
  | _ => None
  end.

(** * Properties *)

Example calc_ex1 :
  calculate_days_until_birthday (mkdate 2026 11 3) "1990-11-03" = Ok 0.
Proof. reflexivity. Qed.
Example calc_ex2 :
  calculate_days_until_birthday (mkdate 2026 11 3) "1990-11-04" = Ok 1.
Proof. reflexivity. Qed.
Example calc_ex3 :
  calculate_days_until_birthday (mkdate 2026 11 3) "1990-11-02" = Ok 364.
Proof. reflexivity. Qed.
Example calc_ex4 :
  calculate_days_until_birthday (mkdate 2026 11 3) "1990-1-5" = Ok 63.
Proof. reflexivity. Qed.
Example calc_ex5 :
  calculate_days_until_birthday (mkdate 2026 11 3) "2000-02-29"
  = Raise (ValueError "day is out of range for month").
Proof. reflexivity. Qed.

(** ** Facts of the calendar *)

Section Calendar.

Lemma date_new_Ok (y m d : Z) (x : date) :
  date_new y m d = Ok x <->
  x = mkdate y m d /\ 1 <= y <= 9999 /\ 1 <= m <= 12
  /\ 1 <= d <= _days_in_month y m.
Proof.
  unfold date_new, MINYEAR, MAXYEAR.
  destruct (1 <=? y) eqn:Hy1, (y <=? 9999) eqn:Hy2,
           (1 <=? m) eqn:Hm1, (m <=? 12) eqn:Hm2,
           (1 <=? d) eqn:Hd1, (d <=? _days_in_month y m) eqn:Hd2;
    simpl; split; intros H; try discriminate H;
    try (injection H as <-); repeat split; try lia;
    try (destruct H as (-> & ? & ? & ?); first [reflexivity | lia]).
Qed.

Lemma date_ok_fields (d : date) :
  date_ok d <->
  1 <= year d <= 9999 /\ 1 <= month d <= 12
  /\ 1 <= day d <= _days_in_month (year d) (month d).
Proof.
  unfold date_ok. rewrite date_new_Ok. destruct d; simpl. intuition.
Qed.

Lemma month_cases (m : Z) :
  1 <= m <= 12 ->
  m = 1 \/ m = 2 \/ m = 3 \/ m = 4 \/ m = 5 \/ m = 6 \/ m = 7 \/ m = 8
  \/ m = 9 \/ m = 10 \/ m = 11 \/ m = 12.
Proof. lia. Qed.

Lemma days_before_year_succ (y : Z) :
  1 <= y ->
  _days_before_year (y + 1)
  = _days_before_year y + (if _is_leap y then 366 else 365).
Proof.
  intros Hy. unfold _days_before_year, _is_leap.
  replace (y + 1 - 1) with y by lia.
  destruct (y mod 4 =? 0) eqn:H4, (y mod 100 =? 0) eqn:H100,
           (y mod 400 =? 0) eqn:H400; simpl;
    rewrite ?Z.eqb_eq, ?Z.eqb_neq in *;
    Z.div_mod_to_equations; lia.
Qed.

Lemma days_before_year_mono (a b : Z) :
  1 <= a -> a < b -> _days_before_year a + 365 <= _days_before_year b.
Proof.
  intros Ha Hab. unfold _days_before_year.
  Z.div_mod_to_equations. lia.
Qed.

Lemma leap_not_twice (y : Z) :
  _is_leap y = true -> _is_leap (y + 1) = false.
Proof.
  unfold _is_leap. intros H.
  apply andb_true_iff in H as [H4 _]. apply Z.eqb_eq in H4.
  replace ((y + 1) mod 4 =? 0) with false; [reflexivity|].
  symmetry. apply Z.eqb_neq. Z.div_mod_to_equations. lia.
Qed.

(** A day of year [y] lies after the days before [y] and not after the
    days before [y + 1]. *)
Lemma ymd2ord_in_year (y m d : Z) :
  1 <= y -> 1 <= m <= 12 -> 1 <= d <= _days_in_month y m ->
  _days_before_year y + 1 <= _ymd2ord y m d <= _days_before_year (y + 1).
Proof.
  intros Hy Hm Hd. rewrite days_before_year_succ by assumption.
  unfold _ymd2ord, _days_before_month. unfold _days_in_month in Hd.
  destruct (month_cases m Hm) as
    [->|[->|[->|[->|[->|[->|[->|[->|[->|[->|[->| ->]]]]]]]]]]];
    destruct (_is_leap y); simpl in *; lia.
Qed.

(** Within a year the ordinal follows the order of [(month, day)]. *)
Lemma ymd2ord_lt_in_year (y m d m' d' : Z) :
  1 <= m <= 12 -> 1 <= d <= _days_in_month y m ->
  1 <= m' <= 12 -> 1 <= d' <= _days_in_month y m' ->
  pair_lt (m, d) (m', d') = true ->
  _ymd2ord y m d < _ymd2ord y m' d'.
Proof.
  intros Hm Hd Hm' Hd' Hlt. unfold pair_lt in Hlt. simpl in Hlt.
  assert (Hcmp : m < m' \/ (m = m' /\ d < d')).
  { apply orb_true_iff in Hlt as [H|H]; [left; lia|].
    apply andb_true_iff in H as [H1 H2]. right. lia. }
  clear Hlt. unfold _ymd2ord, _days_before_month.
  unfold _days_in_month in Hd, Hd'.
  destruct (month_cases m Hm) as
    [->|[->|[->|[->|[->|[->|[->|[->|[->|[->|[->| ->]]]]]]]]]]];
    destruct (month_cases m' Hm') as
    [->|[->|[->|[->|[->|[->|[->|[->|[->|[->|[->| ->]]]]]]]]]]];
    destruct (_is_leap y); simpl in *; lia.
Qed.

(** The ordinal follows the order of dates. *)
Lemma toordinal_lt (a b : date) :
  date_ok a -> date_ok b -> date_lt a b = true -> toordinal a < toordinal b.
Proof.
  rewrite !date_ok_fields. intros (Hya & Hma & Hda) (Hyb & Hmb & Hdb) Hlt.
  unfold date_lt in Hlt. unfold toordinal.
  apply orb_true_iff in Hlt as [Hy|Hy].
  - apply Z.ltb_lt in Hy.
    pose proof (ymd2ord_in_year _ _ _ (proj1 Hya) Hma Hda) as Ha.
    pose proof (ymd2ord_in_year _ _ _ (proj1 Hyb) Hmb Hdb) as Hb.
    destruct (Z.eq_dec (year a + 1) (year b)) as [E|E].
    + rewrite E in Ha. lia.
    + pose proof (days_before_year_mono (year a + 1) (year b)). lia.
  - apply andb_true_iff in Hy as [Hy Hmd]. apply Z.eqb_eq in Hy.
    rewrite <- Hy in *. now apply ymd2ord_lt_in_year.
Qed.

Lemma date_lt_total (a b : date) :
  date_lt a b = false -> date_lt b a = false -> a = b.
Proof.
  unfold date_lt, pair_lt. destruct a, b; simpl. intros H1 H2.
  apply orb_false_iff in H1 as [H1 H1']. apply orb_false_iff in H2 as [H2 H2'].
  apply Z.ltb_ge in H1, H2. assert (year0 = year1) as -> by lia.
  rewrite Z.eqb_refl in H1', H2'. simpl in *.
  apply orb_false_iff in H1' as [H3 H3']. apply orb_false_iff in H2' as [H4 H4'].
  apply Z.ltb_ge in H3, H4. assert (month0 = month1) as -> by lia.
  rewrite Z.eqb_refl in H3', H4'. simpl in *.
  apply Z.ltb_ge in H3', H4'. f_equal. lia.
Qed.

(** A date that is not before [b] has an ordinal that is not before. *)
Lemma toordinal_ge (a b : date) :
  date_ok a -> date_ok b -> date_lt a b = false -> toordinal b <= toordinal a.
Proof.
  intros Ha Hb Hlt. destruct (date_lt b a) eqn:Hba.
  - apply Z.lt_le_incl. now apply toordinal_lt.
  - rewrite (date_lt_total a b Hlt Hba). lia.
Qed.

(** Dates with the same ordinal are the same date. *)
Lemma toordinal_inj (a b : date) :
  date_ok a -> date_ok b -> toordinal a = toordinal b -> a = b.
Proof.
  intros Ha Hb E. apply date_lt_total.
  - destruct (date_lt a b) eqn:H; [|reflexivity].
    pose proof (toordinal_lt a b Ha Hb H). lia.
  - destruct (date_lt b a) eqn:H; [|reflexivity].
    pose proof (toordinal_lt b a Hb Ha H). lia.
Qed.

End Calendar.

(** ** The days until the next birthday *)

Section DaysUntilBirthday.

(** The same month and day one year later is at most 366 days later. *)
Lemma next_year_within_366 (y m d : Z) :
  1 <= y -> 1 <= m <= 12 ->
  _ymd2ord (y + 1) m d - _ymd2ord y m d <= 366.
Proof.
  intros Hy Hm. unfold _ymd2ord, _days_before_month.
  rewrite days_before_year_succ by assumption.
  pose proof (leap_not_twice y) as Hl.
  destruct (_is_leap y), (_is_leap (y + 1));
    try (specialize (Hl eq_refl); discriminate Hl);
    destruct (m >? 2); simpl; lia.
Qed.

Lemma date_lt_irrefl (a : date) : date_lt a a = false.
Proof.
  unfold date_lt, pair_lt. simpl.
  rewrite !Z.ltb_irrefl, !Z.eqb_refl. reflexivity.
Qed.

(** What the function computes once the birth date is parsed and the
    dates it builds exist. *)
Lemma calculate_unfold (today birth : date) (s : string) :
  strptime_date s = Ok birth ->
  let cand := mkdate (year today) (month birth) (day birth) in
  let next := mkdate (year today + 1) (month birth) (day birth) in
  date_ok cand ->
  (date_lt cand today = true -> date_ok next) ->
  calculate_days_until_birthday today s
  = Ok (date_sub_days (if date_lt cand today then next else cand) today).
Proof.
  intros Hs cand next Hc Hn. unfold calculate_days_until_birthday.
  rewrite Hs. simpl. unfold date_ok in Hc. simpl in Hc. rewrite Hc. simpl.
  fold cand. destruct (date_lt cand today) eqn:Hlt; simpl.
  - specialize (Hn eq_refl). unfold date_ok in Hn. simpl in Hn.
    rewrite Hn. reflexivity.
  - reflexivity.
Qed.

Lemma days_until_range (today cand next : date) :
  date_ok today -> date_ok cand ->
  year cand = year today ->
  next = mkdate (year today + 1) (month cand) (day cand) ->
  (date_lt cand today = true -> date_ok next) ->
  0 <= date_sub_days (if date_lt cand today then next else cand) today <= 365.
Proof.
  intros Ht Hc Hy -> Hn. unfold date_sub_days.
  pose proof Ht as Ht'. pose proof Hc as Hc'.
  apply date_ok_fields in Ht' as (Hty & Htm & Htd).
  apply date_ok_fields in Hc' as (Hcy & Hcm & Hcd).
  pose proof (ymd2ord_in_year _ _ _ (proj1 Hty) Htm Htd) as Bt.
  pose proof (ymd2ord_in_year _ _ _ (proj1 Hcy) Hcm Hcd) as Bc.
  fold (toordinal today) in Bt. fold (toordinal cand) in Bc.
  rewrite Hy in Bc.
  destruct (date_lt cand today) eqn:Hlt.
  - specialize (Hn eq_refl).
    pose proof (toordinal_lt _ _ Hc Ht Hlt) as Lt.
    apply date_ok_fields in Hn as (Hny & Hnm & Hnd). simpl in *.
    pose proof (ymd2ord_in_year _ _ _ (proj1 Hny) Hnm Hnd) as Bn.
    pose proof (next_year_within_366 (year today) (month cand) (day cand)
                  (proj1 Hty) Hcm) as W.
    unfold toordinal in *. simpl. rewrite Hy in Lt. lia.
  - pose proof (toordinal_ge _ _ Hc Ht Hlt) as Ge.
    pose proof (days_before_year_succ (year today) (proj1 Hty)) as S.
    destruct (_is_leap (year today)); lia.
Qed.

Lemma same_day_zero (today birth : date) (s : string) :
  date_ok today -> strptime_date s = Ok birth ->
  (month birth, day birth) = (month today, day today) ->
  calculate_days_until_birthday today s = Ok 0.
Proof.
  intros Ht Hs E. injection E as Em Ed.
  assert (Hc : mkdate (year today) (month birth) (day birth) = today).
  { rewrite Em, Ed. destruct today; reflexivity. }
  rewrite (calculate_unfold today birth s Hs); rewrite Hc.
  - rewrite date_lt_irrefl. unfold date_sub_days. f_equal. lia.
  - exact Ht.
  - rewrite date_lt_irrefl. discriminate.
Qed.

Lemma next_day_one (today tomorrow birth : date) (s : string) :
  date_ok today -> strptime_date s = Ok birth ->
  date_ok tomorrow -> toordinal tomorrow = toordinal today + 1 ->
  (month birth, day birth) = (month tomorrow, day tomorrow) ->
  calculate_days_until_birthday today s = Ok 1.
Proof.
  intros Ht Hs Hm Hord E. injection E as Em Ed.
  pose proof Ht as Ht'. pose proof Hm as Hm'.
  apply date_ok_fields in Ht' as (Hty & Htm & Htd).
  apply date_ok_fields in Hm' as (Hmy & Hmm & Hmd).
  assert (Hnlt : date_lt tomorrow today = false).
  { destruct (date_lt tomorrow today) eqn:H; [|reflexivity].
    pose proof (toordinal_lt _ _ Hm Ht H). lia. }
  destruct (Z.eq_dec (year tomorrow) (year today)) as [Ey|Ney].
  - (* tomorrow is in today's year: it is the candidate *)
    assert (Hc : mkdate (year today) (month birth) (day birth) = tomorrow).
    { rewrite Em, Ed, <- Ey. destruct tomorrow; reflexivity. }
    rewrite (calculate_unfold today birth s Hs); rewrite Hc.
    + rewrite Hnlt. unfold date_sub_days. f_equal. lia.
    + exact Hm.
    + rewrite Hnlt. discriminate.
  - (* tomorrow is the first day of next year *)
    pose proof (ymd2ord_in_year _ _ _ (proj1 Hty) Htm Htd) as Bt.
    pose proof (ymd2ord_in_year _ _ _ (proj1 Hmy) Hmm Hmd) as Bm.
    fold (toordinal today) in Bt. fold (toordinal tomorrow) in Bm.
    assert (Hy : year tomorrow = year today + 1).
    { destruct (Z_lt_le_dec (year tomorrow) (year today)) as [L|G].
      - exfalso. unfold date_lt in Hnlt.
        apply Z.ltb_lt in L. rewrite L in Hnlt. discriminate.
      - destruct (Z.eq_dec (year tomorrow) (year today + 1)); [assumption|].
        pose proof (days_before_year_mono (year today + 1) (year tomorrow)).
        lia. }
    rewrite Hy in *.
    assert (Hfirst : month tomorrow = 1 /\ day tomorrow = 1).
    { unfold toordinal in Hord at 1. rewrite Hy in Hord.
      unfold _ymd2ord, _days_before_month in Hord.
      unfold _days_in_month in Hmd. clear Bm.
      set (D := _days_before_year (year today + 1)) in *.
      set (O := toordinal today) in *.
      destruct (month_cases _ Hmm) as
        [E|[E|[E|[E|[E|[E|[E|[E|[E|[E|[E|E]]]]]]]]]]];
        rewrite E in *; destruct (_is_leap (year today + 1));
        simpl in *; lia. }
    destruct Hfirst as [M1 D1].
    assert (Hlast : pair_lt (1, 1) (month today, day today) = true).
    { unfold pair_lt, fst, snd. apply orb_true_iff.
      destruct (Z_lt_le_dec 1 (month today)) as [L|L];
        [left; now apply Z.ltb_lt|right].
      assert (M : month today = 1) by lia.
      apply andb_true_iff. split; [apply Z.eqb_eq; lia|]. apply Z.ltb_lt.
      assert (O : toordinal today = _days_before_year (year today + 1)).
      { unfold toordinal in Hord at 1.
        unfold _ymd2ord, _days_before_month in Hord.
        rewrite Hy, M1, D1 in Hord. simpl in Hord. lia. }
      rewrite days_before_year_succ in O by lia.
      unfold toordinal, _ymd2ord, _days_before_month in O.
      rewrite M in O. simpl in O. destruct (_is_leap (year today)); lia. }
    assert (Hc : date_ok (mkdate (year today) (month birth) (day birth))).
    { apply date_ok_fields. simpl. rewrite Em, Ed, M1, D1.
      unfold _days_in_month. simpl. lia. }
    assert (Hlt : date_lt (mkdate (year today) (month birth) (day birth)) today
                  = true).
    { unfold date_lt. simpl. rewrite Z.ltb_irrefl, Z.eqb_refl. simpl.
      rewrite Em, Ed, M1, D1. exact Hlast. }
    assert (Hn : mkdate (year today + 1) (month birth) (day birth) = tomorrow).
    { rewrite Em, Ed, <- Hy. destruct tomorrow; reflexivity. }
    rewrite (calculate_unfold today birth s Hs Hc).
    + rewrite Hlt, Hn. unfold date_sub_days. f_equal. lia.
    + intros _. rewrite Hn. exact Hm.
Qed.

End DaysUntilBirthday.

(** ** The claims on [calculate_days_until_birthday] *)

(** C1.  For a birth date text that parses and a current date [today]:
    when the birth month and day exist as a date in today's year, and in
    the next year if that candidate is before today, the function returns
    the ordinal of the occurrence it chose (the candidate, or next year's
    date when the candidate is strictly before today) minus the ordinal of
    today, a number between 0 and 366; a birth month and day equal to
    today's gives 0, and equal to those of the day after today gives 1. *)
Theorem days_until_birthday_correct (today birth : date) (s : string) :
  date_ok today ->
  strptime_date s = Ok birth ->
  let cand := mkdate (year today) (month birth) (day birth) in
  let next := mkdate (year today + 1) (month birth) (day birth) in
  (date_ok cand -> (date_lt cand today = true -> date_ok next) ->
     exists n,
       calculate_days_until_birthday today s = Ok n
       /\ n = date_sub_days (if date_lt cand today then next else cand) today
       /\ 0 <= n <= 366)
  /\ ((month birth, day birth) = (month today, day today) ->
      calculate_days_until_birthday today s = Ok 0)
  /\ (forall tomorrow,
        date_ok tomorrow -> toordinal tomorrow = toordinal today + 1 ->
        (month birth, day birth) = (month tomorrow, day tomorrow) ->
        calculate_days_until_birthday today s = Ok 1).
Proof.
  intros Ht Hs cand next. split; [|split].
  - intros Hc Hn. eexists. split; [|split; [reflexivity|]].
    + now apply calculate_unfold.
    + pose proof (days_until_range today cand next Ht Hc eq_refl eq_refl Hn).
      lia.
  - now apply same_day_zero.
  - intros tomorrow Hm Hord E. now apply (next_day_one today tomorrow birth).
Qed.

Lemma days_until_birthday_correct_witness :
  (exists n,
     calculate_days_until_birthday (mkdate 2026 12 31) "1990-01-01" = Ok n
     /\ 0 <= n <= 366)
  /\ calculate_days_until_birthday (mkdate 2026 12 31) "1990-01-01" = Ok 1.
Proof.
  destruct (days_until_birthday_correct (mkdate 2026 12 31) (mkdate 1990 1 1)
              "1990-01-01" eq_refl eq_refl) as (A & _ & C).
  split.
  - destruct A as (n & Hn & _ & Hr); [reflexivity|reflexivity|].
    exists n. split; [exact Hn|exact Hr].
  - apply (C (mkdate 2027 1 1)); reflexivity.
Defined.

(** C3.  A birth date of 29 February makes the function raise when the
    year of the date it builds is not a leap year: in 2025 the candidate
    does not exist, and on 1 March 2024 the occurrence of the next year
    does not exist.  The validator accepts such a birth date. *)
Theorem leap_day_birthday_raises :
  date_ok (mkdate 2025 6 1) /\ date_ok (mkdate 2024 3 1)
  /\ Member.validate_birth_date (mkdate 2025 6 1) "2000-02-29"
     = Ok "2000-02-29"
  /\ calculate_days_until_birthday (mkdate 2025 6 1) "2000-02-29"
     = Raise (ValueError "day is out of range for month")
  /\ calculate_days_until_birthday (mkdate 2024 3 1) "2000-02-29"
     = Raise (ValueError "day is out of range for month").
Proof. repeat split; reflexivity. Qed.

(** C9.  Two birth date texts that parse to the same month and day give
    the same result on every current date, whatever their years. *)
Theorem days_until_birthday_ignores_year (today b1 b2 : date) (s1 s2 : string) :
  strptime_date s1 = Ok b1 ->
  strptime_date s2 = Ok b2 ->
  month b1 = month b2 -> day b1 = day b2 ->
  calculate_days_until_birthday today s1
  = calculate_days_until_birthday today s2.
Proof.
  intros H1 H2 Hm Hd. unfold calculate_days_until_birthday.
  rewrite H1, H2. simpl. rewrite Hm, Hd. reflexivity.
Qed.

Lemma days_until_birthday_ignores_year_witness :
  calculate_days_until_birthday (mkdate 2026 11 3) "1990-12-25"
  = calculate_days_until_birthday (mkdate 2026 11 3) "1964-12-25".
Proof.
  apply (days_until_birthday_ignores_year (mkdate 2026 11 3)
           (mkdate 1990 12 25) (mkdate 1964 12 25)); reflexivity.
Defined.

(** ** The table keeps its order and its constraint *)

Section StoreInvariant.

Lemma same_key_spec (m : Member.t) (r : Row) :
  same_key m r = true <-> key_of_row r = key_of m.
Proof.
  unfold same_key, key_of_row, key_of.
  rewrite !andb_true_iff, !String.eqb_eq. split.
  - intros [[[-> ->] ->] ->]. reflexivity.
  - intros [= -> -> -> ->]. auto.
Qed.

Lemma StronglySorted_snoc {A} (R : A -> A -> Prop) (l : list A) (y : A) :
  StronglySorted R l -> Forall (fun x => R x y) l ->
  StronglySorted R (l ++ [y]).
Proof.
  induction 1 as [|x l Hs IH Hx]; intros Hy; simpl.
  - repeat constructor.
  - apply Forall_cons in Hy as [Hxy Hy]. constructor; [now apply IH|].
    apply Forall_app. split; [exact Hx|]. now repeat constructor.
Qed.

Lemma max_rowid_ge (rs : list Row) :
  Forall (fun r => id r <= max_rowid rs) rs.
Proof.
  induction rs as [|r rs IH]; constructor.
  - unfold max_rowid. simpl. lia.
  - eapply Forall_impl; [exact IH|]. intros x Hx.
    unfold max_rowid in *. simpl in *. lia.
Qed.

(** The rowid given to a new row is above the id of every row. *)
Lemma new_row_id_above (st : Store) (m : Member.t) (now : string) :
  Forall (fun r => id r < id (new_row st m now)) (rows st).
Proof.
  eapply Forall_impl; [apply max_rowid_ge|]. intros r Hr. simpl in *. lia.
Qed.

Lemma init_db_ok : store_ok init_db.
Proof. split; constructor. Qed.

Lemma INSERT_ok (st st' : Store) (m : Member.t) (now : string) (rowid : Z) :
  store_ok st -> INSERT st m now = Ok (rowid, st') -> store_ok st'.
Proof.
  intros [Hs Hk]. unfold INSERT.
  destruct (existsb (same_key m) (rows st)) eqn:He; [discriminate|].
  intros [= _ <-]. split; cbn [rows].
  - apply StronglySorted_snoc; [exact Hs|apply new_row_id_above].
  - rewrite map_app. apply NoDup_app. split; [exact Hk|]. split.
    + intros k Hin Hnew. apply list_elem_of_In in Hin.
      apply in_map_iff in Hin as (r & <- & Hr).
      apply list_elem_of_In in Hnew. simpl in Hnew.
      destruct Hnew as [Hnew|[]].
      assert (Hsame : same_key m r = true).
      { apply same_key_spec. rewrite <- Hnew. reflexivity. }
      assert (Hex : existsb (same_key m) (rows st) = true).
      { apply existsb_exists. now exists r. }
      congruence.
    + simpl. apply NoDup_singleton.
Qed.

Lemma INSERT_OR_IGNORE_ok (st : Store) (m : Member.t) (now : string) :
  store_ok st -> store_ok (INSERT_OR_IGNORE st m now).
Proof.
  intros H. unfold INSERT_OR_IGNORE.
  destruct (INSERT st m now) as [[rowid st']|e] eqn:Hi.
  - now apply (INSERT_ok st st' m now rowid).
  - exact H.
Qed.

Lemma seed_data_ok (clock : nat -> string) (st : Store) :
  store_ok st -> store_ok (seed_data clock st).
Proof.
  unfold seed_data. generalize 0%nat. revert st.
  induction sample_members as [|m ms IH]; intros st i H; simpl; [exact H|].
  apply IH. now apply INSERT_OR_IGNORE_ok.
Qed.

(** A create request, accepted or refused, leaves a table in order with
    its constraint kept. *)
Lemma POST_members_ok (today : date) (now : string) (st : Store)
    (body : Member.t) :
  store_ok st -> store_ok (snd (POST_members today now st body)).
Proof.
  intros H. unfold POST_members.
  destruct (Member.validate today body) as [member|e]; [|exact H].
  unfold create_member.
  destruct (INSERT st member now) as [[rowid st']|e] eqn:Hi; simpl.
  - now apply (INSERT_ok st st' member now rowid).
  - destruct e; exact H.
Qed.

End StoreInvariant.

(** ** The validator of [birth_date] *)

Section Strptime.

Lemma digit_cases (c : ascii) :
  is_digit c = true ->
  c = "0"%char \/ c = "1"%char \/ c = "2"%char \/ c = "3"%char
  \/ c = "4"%char \/ c = "5"%char \/ c = "6"%char \/ c = "7"%char
  \/ c = "8"%char \/ c = "9"%char.
Proof.
  destruct c as [[] [] [] [] [] [] [] []]; intros H;
    try discriminate H; auto 10.
Qed.

Lemma days_in_month_le_31 (y m : Z) : _days_in_month y m <= 31.
Proof.
  unfold _days_in_month. destruct ((m =? 2) && _is_leap y); [lia|].
  unfold _DAYS_IN_MONTH.
  do 13 (destruct (Z.to_nat m) as [|n]; [simpl; lia|]; clear m;
         set (m := Z.of_nat n); replace n with (Z.to_nat m)
           by apply Nat2Z.id; clearbody m; clear n).
  destruct (Z.to_nat m); simpl; lia.
Qed.

(** The month of a strict text: the two digits are taken when they write
    a number from 1 to 12, and nothing matches otherwise. *)
Lemma re_m_two_digits {A} (e f : ascii) (r : string)
    (k : Z -> string -> option A) :
  is_digit e = true -> is_digit f = true ->
  let v := int (String e (String f EmptyString)) in
  re_m (String e (String f (String "-" r))) (fun m s => re_lit "-" s (k m))
  = if (1 <=? v) && (v <=? 12) then k v r else None.
Proof.
  intros He Hf.
  destruct (digit_cases e He) as [->|[->|[->|[->|[->|[->|[->|[->|[->| ->]]]]]]]]];
    destruct (digit_cases f Hf) as [->|[->|[->|[->|[->|[->|[->|[->|[->| ->]]]]]]]]];
    cbv; try reflexivity;
    match goal with |- context [k ?a r] => destruct (k a r) end; reflexivity.
Qed.

(** The day of a strict text: the two digits are taken when they write a
    number from 1 to 31; otherwise nothing matches or text is left. *)
Lemma re_d_two_digits (g h : ascii) (y m : Z) :
  is_digit g = true -> is_digit h = true ->
  let v := int (String g (String h EmptyString)) in
  re_d (String g (String h EmptyString)) (fun d s => Some (y, m, d, s))
  = if (1 <=? v) && (v <=? 31) then Some (y, m, v, EmptyString)
    else if v =? 0 then None
    else Some (y, m, digit_value g, String h EmptyString).
Proof.
  intros Hg Hh.
  destruct (digit_cases g Hg) as [->|[->|[->|[->|[->|[->|[->|[->|[->| ->]]]]]]]]];
    destruct (digit_cases h Hh) as [->|[->|[->|[->|[->|[->|[->|[->|[->| ->]]]]]]]]];
    reflexivity.
Qed.

(** Every strict text is parsed as the date it writes, when there is one. *)
Lemma strptime_date_strict (v : string) (y m d : Z) (dt : date) :
  strict_YYYY_MM_DD v = Some (y, m, d) ->
  strptime_date v = Ok dt <-> date_new y m d = Ok dt.
Proof.
  unfold strict_YYYY_MM_DD.
  destruct v as [|y1 [|y2 [|y3 [|y4 [|s1 [|m1 [|m2 [|s2 [|d1 [|d2 [|? ?]]]]]]]]]]];
    try discriminate.
  destruct (is_digit y1 && is_digit y2 && is_digit y3 && is_digit y4
            && Ascii.eqb s1 "-" && is_digit m1 && is_digit m2
            && Ascii.eqb s2 "-" && is_digit d1 && is_digit d2) eqn:Hc;
    [|discriminate].
  rewrite !andb_true_iff in Hc.
  destruct Hc as (((((((((Hy1 & Hy2) & Hy3) & Hy4) & Hs1) & Hm1) & Hm2)
                    & Hs2) & Hd1) & Hd2).
  apply Ascii.eqb_eq in Hs1, Hs2. subst s1 s2.
  intros [= <- <- <-].
  unfold strptime_date, format_regex_match, re_Y.
  rewrite Hy1, Hy2, Hy3, Hy4. cbn [andb].
  set (Y := int (String y1 (String y2 (String y3 (String y4 EmptyString))))).
  change (re_lit "-" (String "-" ?s) ?k) with (k s). cbv beta.
  rewrite (re_m_two_digits m1 m2 _
             (fun m s0 => re_d s0 (fun d s1 => Some (Y, m, d, s1))) Hm1 Hm2).
  cbv zeta. set (M := int (String m1 (String m2 EmptyString))).
  destruct ((1 <=? M) && (M <=? 12)) eqn:HM.
  - rewrite (re_d_two_digits d1 d2 Y M Hd1 Hd2). cbv zeta.
    set (D := int (String d1 (String d2 EmptyString))).
    destruct ((1 <=? D) && (D <=? 31)) eqn:HD; [reflexivity|].
    assert (Hno : date_new Y M D <> Ok dt).
    { rewrite date_new_Ok. intros (_ & _ & _ & HDr).
      pose proof (days_in_month_le_31 Y M).
      apply andb_false_iff in HD as [HD|HD];
        [apply Z.leb_gt in HD|apply Z.leb_gt in HD]; lia. }
    destruct (D =? 0); simpl; split; intros H;
      first [discriminate H | contradiction].
  - split; intros H; [discriminate H|].
    apply date_new_Ok in H as (_ & _ & HMr & _).
    apply andb_false_iff in HM as [HM|HM];
      [apply Z.leb_gt in HM|apply Z.leb_gt in HM]; lia.
Qed.

Lemma strptime_date_ok (v : string) (birth : date) :
  strptime_date v = Ok birth -> date_ok birth.
Proof.
  unfold strptime_date.
  destruct (format_regex_match v) as [[[[y m] d] rest]|]; [|discriminate].
  destruct (String.eqb rest ""); [|discriminate].
  intros H. pose proof H as H'. apply date_new_Ok in H' as [-> _].
  exact H.
Qed.

Lemma strptime_date_raises (v : string) (e : exn) :
  strptime_date v = Raise e -> exists msg, e = ValueError msg.
Proof.
  unfold strptime_date.
  destruct (format_regex_match v) as [[[[y m] d] rest]|];
    [|intros [= <-]; eauto].
  destruct (String.eqb rest ""); [|intros [= <-]; eauto].
  unfold date_new.
  repeat match goal with
         | |- context [if ?c then _ else _] => destruct c
         end; intros [= <-]; eauto.
Qed.


End Strptime.

Lemma append_empty_r (s : string) : s +:+ "" = s.
Proof.
  induction s as [|c s IH]; [reflexivity|].
  change (String c (s +:+ "") = String c s). now rewrite IH.
Qed.

Lemma append_assoc (a b c : string) : (a +:+ b) +:+ c = a +:+ (b +:+ c).
Proof.
  induction a as [|x a IH]; [reflexivity|].
  change (String x ((a +:+ b) +:+ c) = String x (a +:+ (b +:+ c))).
  now rewrite IH.
Qed.

Lemma contains_suffix (p s : string) : contains (p +:+ s) s.
Proof. exists p, "". now rewrite append_empty_r. Qed.

Lemma contains_middle (p s q : string) : contains (p +:+ s +:+ q) s.
Proof. now exists p, q. Qed.

Lemma contains_append_l (t s p : string) :
  contains t s -> contains (p +:+ t) s.
Proof.
  intros (a & b & ->). exists (p +:+ a), b. now rewrite append_assoc.
Qed.

(** X19.  What the validator does on every text.  A text of the strict
    form YYYY-MM-DD is parsed exactly when the numbers it writes are a
    calendar date, and then as that date.  When the text does not parse
    the validator fails with the format error.  When it parses, the date
    is a calendar date, the age is the difference of the years minus 1
    exactly when today's (month, day) is before the birth's; below 18 the
    validator fails with an error whose text contains the age, and
    otherwise it returns the text. *)
Theorem validate_birth_date_correct (today : date) (v : string) :
  (forall y m d dt,
     strict_YYYY_MM_DD v = Some (y, m, d) ->
     strptime_date v = Ok dt <-> date_new y m d = Ok dt)
  /\ match strptime_date v with
     | Raise _ =>
         Member.validate_birth_date today v
         = Raise (ValueError "Birth date must be in YYYY-MM-DD format")
     | Ok birth =>
         date_ok birth
         /\ Member.age today birth
            = year today - year birth
              - (if decide (month today < month birth
                            \/ (month today = month birth
                                /\ day today < day birth))
                 then 1 else 0)
         /\ (Member.age today birth < 18 ->
             exists text,
               Member.validate_birth_date today v = Raise (ValueError text)
               /\ contains text (str (Member.age today birth)))
         /\ (18 <= Member.age today birth ->
             Member.validate_birth_date today v = Ok v)
     end.
Proof.
  split.
  - intros y m d dt Hs. now apply strptime_date_strict.
  - unfold Member.validate_birth_date.
    destruct (strptime_date v) as [birth|e] eqn:Hp.
    + split; [now apply (strptime_date_ok v)|]. split; [|split].
      * unfold Member.age, pair_lt, fst, snd.
        destruct (decide _) as [H|H].
        -- replace ((month today <? month birth)
                    || (month today =? month birth) && (day today <? day birth))
             with true; [reflexivity|].
           symmetry. apply orb_true_iff.
           destruct H as [H|[H1 H2]]; [left; now apply Z.ltb_lt|right].
           apply andb_true_iff. split; [now apply Z.eqb_eq|now apply Z.ltb_lt].
        -- replace ((month today <? month birth)
                    || (month today =? month birth) && (day today <? day birth))
             with false; [reflexivity|].
           symmetry. apply orb_false_iff. split.
           ++ apply Z.ltb_ge. lia.
           ++ apply andb_false_iff.
              destruct (Z.eq_dec (month today) (month birth)) as [E|E];
                [right; apply Z.ltb_ge; lia|left; now apply Z.eqb_neq].
      * intros Hlt. apply Z.ltb_lt in Hlt. rewrite Hlt.
        eexists. split; [reflexivity|]. apply contains_suffix.
      * intros Hge. apply Z.ltb_ge in Hge. rewrite Hge. reflexivity.
    + destruct (strptime_date_raises v e Hp) as [msg ->]. reflexivity.
Qed.

Lemma validate_birth_date_correct_witness :
  (exists text,
     Member.validate_birth_date (mkdate 2026 11 3) "2016-11-05"
     = Raise (ValueError text) /\ contains text "9")
  /\ Member.validate_birth_date (mkdate 2026 11 3) "1990-01-01"
     = Ok "1990-01-01".
Proof.
  split.
  - pose proof (validate_birth_date_correct (mkdate 2026 11 3) "2016-11-05")
      as [_ H].
    change (strptime_date "2016-11-05") with (Ok (mkdate 2016 11 5)) in H.
    destruct H as (_ & _ & H & _). apply H. vm_compute. reflexivity.
  - pose proof (validate_birth_date_correct (mkdate 2026 11 3) "1990-01-01")
      as [_ H].
    change (strptime_date "1990-01-01") with (Ok (mkdate 1990 1 1)) in H.
    destruct H as (_ & _ & _ & H). apply H. vm_compute. discriminate.
Defined.

(** C2.  The validator does not parse strictly.  Its error names the
    format YYYY-MM-DD, and a text with slashes or with the day first is
    refused with it; yet a month or a day written with one digit, or a
    day written with a space before its digit, is accepted, and the create
    operation stores such a text as it was given. *)
Theorem validate_birth_date_accepts_unpadded :
  let today := mkdate 2026 11 3 in
  let unpadded := Member.mk "Ada" "Byron" "1990-1-5" "UK" "London" in
  strict_YYYY_MM_DD "1990-1-5" = None
  /\ strict_YYYY_MM_DD "1990-1- 5" = None
  /\ strptime_date "1990-1-5" = Ok (mkdate 1990 1 5)
  /\ strptime_date "1990-1- 5" = Ok (mkdate 1990 1 5)
  /\ Member.validate_birth_date today "1990-1-5" = Ok "1990-1-5"
  /\ Member.validate_birth_date today "1990-1- 5" = Ok "1990-1- 5"
  /\ Member.validate_birth_date today "1990/01/05"
     = Raise (ValueError "Birth date must be in YYYY-MM-DD format")
  /\ Member.validate_birth_date today "05-01-1990"
     = Raise (ValueError "Birth date must be in YYYY-MM-DD format")
  /\ map birth_date
       (rows (snd (POST_members today "2026-11-03T09:00:00" init_db unpadded)))
     = ["1990-1-5"].
Proof. vm_compute. repeat split. Qed.

(** ** Creating members *)

Section Create.

Lemma contains_prefix (s q : string) : contains (s +:+ q) s.
Proof. now exists "", q. Qed.

Lemma member_eta (m : Member.t) :
  Member.mk (Member.first_name m) (Member.last_name m) (Member.birth_date m)
    (Member.country m) (Member.city m) = m.
Proof. now destruct m. Qed.

(** A validated model is the body it was built from. *)
Lemma validate_Ok (today : date) (body m : Member.t) :
  Member.validate today body = Ok m -> m = body.
Proof.
  unfold Member.validate, Member.validate_birth_date.
  destruct (strptime_date (Member.birth_date body)) as [birth|[]];
    try discriminate.
  destruct (Member.age today birth <? 18); [discriminate|].
  intros [= <-]. apply member_eta.
Qed.

Lemma validate_adult (today : date) (body : Member.t) (birth : date) :
  strptime_date (Member.birth_date body) = Ok birth ->
  18 <= Member.age today birth ->
  Member.validate today body = Ok body.
Proof.
  intros Hp Ha. unfold Member.validate, Member.validate_birth_date.
  rewrite Hp. apply Z.ltb_ge in Ha. rewrite Ha. now rewrite member_eta.
Qed.

Lemma create_member_fresh (now : string) (st : Store) (m : Member.t) :
  existsb (same_key m) (rows st) = false ->
  create_member now st m
  = (Ok (mk_created (id (new_row st m now)) m),
     mkStore (rows st ++ [new_row st m now]) (id (new_row st m now))).
Proof.
  intros H. unfold create_member, INSERT. rewrite H. reflexivity.
Qed.

Lemma create_member_taken (now : string) (st : Store) (m : Member.t) :
  existsb (same_key m) (rows st) = true ->
  create_member now st m
  = (Raise (HTTPException 400
       ("Member with name '" +:+ Member.first_name m +:+ " "
        +:+ Member.last_name m +:+ "' in " +:+ Member.city m
        +:+ ", " +:+ Member.country m +:+ " already exists")), st).
Proof.
  intros H. unfold create_member, INSERT. rewrite H. reflexivity.
Qed.

(** The rowid given to a new row is the id of no row of the table. *)
Lemma new_row_id_fresh (st : Store) (m : Member.t) (now : string) :
  Forall (fun r => id r <> id (new_row st m now)) (rows st).
Proof.
  eapply Forall_impl; [apply (new_row_id_above st m now)|].
  intros r Hr. simpl in *. lia.
Qed.

Lemma find_fresh_at_end (rs : list Row) (r : Row) :
  Forall (fun x => id x <> id r) rs ->
  List.find (fun x => id x =? id r) (rs ++ [r]) = Some r.
Proof.
  induction 1 as [|x rs Hx _ IH]; simpl.
  - now rewrite Z.eqb_refl.
  - apply Z.eqb_neq in Hx. now rewrite Hx.
Qed.

Lemma same_key_of_fields (m1 m2 : Member.t) (st : Store) (now : string) :
  Member.first_name m2 = Member.first_name m1 ->
  Member.last_name m2 = Member.last_name m1 ->
  Member.country m2 = Member.country m1 ->
  Member.city m2 = Member.city m1 ->
  same_key m2 (new_row st m1 now) = true.
Proof.
  intros H1 H2 H3 H4. unfold same_key, new_row.
  cbn [first_name last_name country city].
  now rewrite H1, H2, H3, H4, !String.eqb_refl.
Qed.

Lemma conflict_detail_contains (f l ci co : string) :
  let detail :=
    "Member with name '" +:+ f +:+ " " +:+ l +:+ "' in " +:+ ci
    +:+ ", " +:+ co +:+ " already exists" in
  contains detail (f +:+ " " +:+ l) /\ contains detail ci
  /\ contains detail co.
Proof.
  cbv zeta. repeat split.
  - apply contains_append_l.
    exists "", ("' in " +:+ ci +:+ ", " +:+ co +:+ " already exists").
    now rewrite !append_assoc.
  - do 5 apply contains_append_l. apply contains_prefix.
  - do 7 apply contains_append_l. apply contains_prefix.
Qed.

End Create.

(** C4, as the code has it.  On a store that holds no member with the key
    (first_name, last_name, country, city) of two create requests that
    both pass validation, whatever their birth dates and the times of the
    requests, the first create succeeds, and the second is answered with
    the client error 400, not a crash, whose detail contains the name, the
    city and the country, and leaves the store as the first one left
    it. *)
Theorem duplicate_create_conflicts (today1 today2 : date) (now1 now2 : string)
    (st : Store) (b1 b2 : Member.t) :
  existsb (same_key b1) (rows st) = false ->
  Member.first_name b2 = Member.first_name b1 ->
  Member.last_name b2 = Member.last_name b1 ->
  Member.country b2 = Member.country b1 ->
  Member.city b2 = Member.city b1 ->
  (exists m1, Member.validate today1 b1 = Ok m1) ->
  (exists m2, Member.validate today2 b2 = Ok m2) ->
  exists c st1 detail,
    POST_members today1 now1 st b1 = (Ok c, st1)
    /\ POST_members today2 now2 st1 b2
       = (Raise (HTTPException 400 detail), st1)
    /\ respond 201 (fst (POST_members today2 now2 st1 b2))
       = ErrorReply 400 detail
    /\ is_client_error (respond 201 (fst (POST_members today2 now2 st1 b2)))
    /\ contains detail (Member.first_name b2 +:+ " " +:+ Member.last_name b2)
    /\ contains detail (Member.city b2)
    /\ contains detail (Member.country b2).
Proof.
  intros Hfree Hf Hl Hco Hci [m1 Hv1] [m2 Hv2].
  pose proof (validate_Ok _ _ _ Hv1) as ->.
  pose proof (validate_Ok _ _ _ Hv2) as ->.
  assert (Htaken : existsb (same_key b2) (rows st ++ [new_row st b1 now1])
                   = true).
  { rewrite existsb_app. apply orb_true_iff. right. simpl.
    now rewrite (same_key_of_fields b1 b2 st now1 Hf Hl Hco Hci). }
  assert (H2 : POST_members today2 now2
                 (mkStore (rows st ++ [new_row st b1 now1])
                    (id (new_row st b1 now1))) b2
               = (Raise (HTTPException 400
                    ("Member with name '" +:+ Member.first_name b2 +:+ " "
                     +:+ Member.last_name b2 +:+ "' in " +:+ Member.city b2
                     +:+ ", " +:+ Member.country b2 +:+ " already exists")),
                  mkStore (rows st ++ [new_row st b1 now1])
                    (id (new_row st b1 now1)))).
  { unfold POST_members. rewrite Hv2. now apply create_member_taken. }
  eexists _, _, _. split; [|split; [exact H2|]].
  - unfold POST_members. rewrite Hv1. now apply create_member_fresh.
  - rewrite H2. simpl fst.
    destruct (conflict_detail_contains (Member.first_name b2)
                (Member.last_name b2) (Member.city b2) (Member.country b2))
      as (C1 & C2 & C3).
    split; [reflexivity|]. split; [simpl; lia|]. auto.
Qed.

Lemma duplicate_create_conflicts_witness :
  exists c st1 detail,
    POST_members (mkdate 2026 11 3) "2026-11-03T10:00:00" init_db
      (Member.mk "Duplicate" "Test" "1985-05-15" "UK" "Manchester")
    = (Ok c, st1)
    /\ POST_members (mkdate 2026 11 4) "2026-11-04T09:30:00" st1
         (Member.mk "Duplicate" "Test" "1970-01-01" "UK" "Manchester")
       = (Raise (HTTPException 400 detail), st1)
    /\ contains detail "Manchester".
Proof.
  destruct (duplicate_create_conflicts (mkdate 2026 11 3) (mkdate 2026 11 4)
              "2026-11-03T10:00:00" "2026-11-04T09:30:00" init_db
              (Member.mk "Duplicate" "Test" "1985-05-15" "UK" "Manchester")
              (Member.mk "Duplicate" "Test" "1970-01-01" "UK" "Manchester")
              eq_refl eq_refl eq_refl eq_refl eq_refl
              (ex_intro _ _ eq_refl) (ex_intro _ _ eq_refl))
    as (c & st1 & detail & H1 & H2 & _ & _ & _ & H3 & _).
  exists c, st1, detail. auto.
Defined.

(** C4, as stated, fails: on a store that already holds the key the first
    of the two creates is refused; and a second create whose birth date
    does not pass validation is answered 422, not with the conflict. *)
Lemma first_create_refused_on_held_key :
  POST_members (mkdate 2026 11 3) "2026-11-03T10:00:00"
    (seed_data (fun _ => "2026-11-01T08:00:00") init_db)
    (Member.mk "John" "Smith" "1990-03-15" "USA" "New York")
  = (Raise (HTTPException 400
       "Member with name 'John Smith' in New York, USA already exists"),
     seed_data (fun _ => "2026-11-01T08:00:00") init_db)
  /\ respond 201
       (fst (POST_members (mkdate 2026 11 3) "2026-11-03T10:00:00"
               (seed_data (fun _ => "2026-11-01T08:00:00") init_db)
               (Member.mk "John" "Smith" "2016-03-15" "USA" "New York")))
     = ErrorReply 422
         "body -> birth_date: Value error, Member must be at least 18 years old. Current age would be 10".
Proof. split; reflexivity. Qed.

(** C6, as the code has it.  A create request whose birth date text
    parses and gives an age of at least 18, and whose key (first_name,
    last_name, country, city) no member of the store holds, succeeds for
    every names, empty or not: the answer is the created record, with the
    fields of the request unchanged, the birth date verbatim, and an id
    that no member of the store had; the store holds the new row under
    that id. *)
Theorem create_returns_record (today : date) (now : string) (st : Store)
    (body : Member.t) (birth : date) :
  strptime_date (Member.birth_date body) = Ok birth ->
  18 <= Member.age today birth ->
  existsb (same_key body) (rows st) = false ->
  exists c st',
    POST_members today now st body = (Ok c, st')
    /\ respond 201 (fst (POST_members today now st body)) = Reply 201 c
    /\ model_dump c = body
    /\ Member.birth_date (model_dump c) = Member.birth_date body
    /\ Forall (fun r => id r <> lastrowid c) (rows st)
    /\ rows st' = rows st ++ [new_row st body now]
    /\ SELECT_by_id st' (lastrowid c) = Some (new_row st body now)
    /\ id (new_row st body now) = lastrowid c.
Proof.
  intros Hp Ha Hfree. eexists _, _.
  assert (H : POST_members today now st body
              = (Ok (mk_created (id (new_row st body now)) body),
                 mkStore (rows st ++ [new_row st body now])
                   (id (new_row st body now)))).
  { unfold POST_members. rewrite (validate_adult today body birth Hp Ha).
    now apply create_member_fresh. }
  split; [exact H|]. rewrite H. cbn [fst lastrowid model_dump rows].
  repeat split.
  - apply new_row_id_fresh.
  - unfold SELECT_by_id. cbn [rows]. apply find_fresh_at_end.
    apply new_row_id_fresh.
Qed.

Lemma create_returns_record_witness :
  exists c st',
    POST_members (mkdate 2026 11 3) "2026-11-03T10:00:00"
      (seed_data (fun _ => "2026-11-01T08:00:00") init_db)
      (Member.mk "Test" "User" "1990-01-01" "USA" "Boston")
    = (Ok c, st')
    /\ lastrowid c = 7
    /\ Member.birth_date (model_dump c) = "1990-01-01".
Proof.
  destruct (create_returns_record (mkdate 2026 11 3) "2026-11-03T10:00:00"
              (seed_data (fun _ => "2026-11-01T08:00:00") init_db)
              (Member.mk "Test" "User" "1990-01-01" "USA" "Boston")
              (mkdate 1990 1 1) eq_refl ltac:(vm_compute; discriminate)
              eq_refl)
    as (c & st' & H & _ & H1 & H2 & _ & _ & _ & H3).
  exists c, st'. repeat split; [exact H| |now rewrite H2].
  rewrite <- H3. reflexivity.
Defined.

(** C6, as stated, fails: a request with names that are not empty and a
    valid birth date of an adult is refused when the store holds its
    key. *)
Lemma adult_create_refused_on_held_key :
  Member.validate (mkdate 2026 11 3)
    (Member.mk "Emma" "Johnson" "1985-07-22" "UK" "London")
  = Ok (Member.mk "Emma" "Johnson" "1985-07-22" "UK" "London")
  /\ POST_members (mkdate 2026 11 3) "2026-11-03T10:00:00"
       (seed_data (fun _ => "2026-11-01T08:00:00") init_db)
       (Member.mk "Emma" "Johnson" "1985-07-22" "UK" "London")
     = (Raise (HTTPException 400
          "Member with name 'Emma Johnson' in London, UK already exists"),
        seed_data (fun _ => "2026-11-01T08:00:00") init_db).
Proof. split; reflexivity. Qed.

(** ** Listing members *)

Section Sorting.

Context {A : Type} (key : A -> Z).

Lemma insert_by_key_perm (x : A) (l : list A) :
  insert_by_key key x l ≡ₚ x :: l.
Proof.
  induction l as [|y l IH]; simpl; [reflexivity|].
  destruct (key x <=? key y); [reflexivity|].
  rewrite IH. apply Permutation_swap.
Qed.

Lemma sort_by_key_perm (l : list A) : sort_by_key key l ≡ₚ l.
Proof.
  induction l as [|x l IH]; simpl; [reflexivity|].
  rewrite insert_by_key_perm. now rewrite IH.
Qed.

Lemma insert_by_key_sorted (x : A) (l : list A) :
  StronglySorted (fun a b => key a <= key b) l ->
  StronglySorted (fun a b => key a <= key b) (insert_by_key key x l).
Proof.
  induction 1 as [|y l Hs IH Hy]; simpl.
  - repeat constructor.
  - destruct (key x <=? key y) eqn:Hxy.
    + apply Z.leb_le in Hxy. constructor.
      * now constructor.
      * constructor; [exact Hxy|].
        eapply Forall_impl; [exact Hy|]. intros z Hz. simpl in Hz. lia.
    + apply Z.leb_gt in Hxy. constructor; [exact IH|].
      rewrite insert_by_key_perm. constructor; [lia|exact Hy].
Qed.

Lemma sort_by_key_sorted (l : list A) :
  StronglySorted (fun a b => key a <= key b) (sort_by_key key l).
Proof.
  induction l as [|x l IH]; simpl; [constructor|].
  now apply insert_by_key_sorted.
Qed.

(** The sort is stable: the elements of one key keep their order. *)
Lemma insert_by_key_stable (k : Z) (x : A) (l : list A) :
  filter (fun a => key a = k) (insert_by_key key x l)
  = filter (fun a => key a = k) (x :: l).
Proof.
  induction l as [|y l IH]; simpl; [reflexivity|].
  destruct (key x <=? key y) eqn:Hxy; [reflexivity|].
  apply Z.leb_gt in Hxy.
  rewrite (filter_cons _ y), IH, !(filter_cons _ x), (filter_cons _ y).
  repeat case_decide; try reflexivity. lia.
Qed.

Lemma sort_by_key_stable (k : Z) (l : list A) :
  filter (fun a => key a = k) (sort_by_key key l)
  = filter (fun a => key a = k) l.
Proof.
  induction l as [|x l IH]; simpl; [reflexivity|].
  rewrite insert_by_key_stable, !filter_cons, IH. reflexivity.
Qed.

End Sorting.

Section ListMembers.

Variable today : date.

(** The loop appends one dict for each row, in the order of the rows. *)
Lemma for_row_in_Ok (rs : list Row) (acc : list member_dict) :
  Forall (fun r => exists n,
            calculate_days_until_birthday today (birth_date r) = Ok n) rs ->
  exists all,
    Forall2 (augments today) rs all /\ for_row_in today rs acc = Ok (acc ++ all).
Proof.
  intros H. revert acc. induction H as [|r rs [n Hn] _ IH]; intros acc.
  - exists []. split; [constructor|]. simpl. now rewrite app_nil_r.
  - destruct (IH (acc ++ [mk_member_dict r n])) as (all & Hall & Hrun).
    exists (mk_member_dict r n :: all). split.
    + constructor; [now split|exact Hall].
    + simpl. rewrite Hn. simpl. rewrite Hrun. now rewrite <- app_assoc.
Qed.

(** The loop stops at the first row whose computation raises. *)
Lemma for_row_in_Raise (rs : list Row) (acc : list member_dict) (e : exn) :
  for_row_in today rs acc = Raise e ->
  Exists (fun r =>
            calculate_days_until_birthday today (birth_date r) = Raise e) rs.
Proof.
  revert acc. induction rs as [|r rs IH]; intros acc; simpl; [discriminate|].
  destruct (calculate_days_until_birthday today (birth_date r)) eqn:Hr; simpl.
  - intros H. right. now apply (IH _ H).
  - intros [= <-]. now left.
Qed.

End ListMembers.

(** X18.  The list operation on a store where the days until the birthday
    can be computed for every row: it computes them for every row, in the
    order of the rows; it then keeps exactly the dicts with a value of at
    most 30 when [upcoming_only] is set, and then sorts the dicts that are
    left by that value when [sort_by_birthday] is set, the filter before the
    sort.  So with [upcoming_only] every value of the result is at most 30
    and the result holds every dict with such a value; with
    [sort_by_birthday] the values of the result do not decrease, and dicts
    of equal value keep their order. *)
Theorem list_members_filter_then_sort (today : date) (st : Store)
    (sort_by_birthday upcoming_only : bool) :
  Forall (fun r => exists n,
            calculate_days_until_birthday today (birth_date r) = Ok n)
         (rows st) ->
  exists all kept members,
    Forall2 (augments today) (rows st) all
    /\ kept = (if upcoming_only
               then filter (fun m => days_until_birthday m <= 30) all
               else all)
    /\ members = (if sort_by_birthday
                  then sort_by_key days_until_birthday kept
                  else kept)
    /\ list_members today st sort_by_birthday upcoming_only = Ok members
    /\ (upcoming_only = true ->
        Forall (fun m => days_until_birthday m <= 30) members
        /\ forall m, m ∈ members <-> m ∈ all /\ days_until_birthday m <= 30)
    /\ (sort_by_birthday = true ->
        StronglySorted days_le members
        /\ forall k,
             filter (fun m => days_until_birthday m = k) members
             = filter (fun m => days_until_birthday m = k) kept)
    /\ members ≡ₚ kept.
Proof.
  intros H. destruct (for_row_in_Ok today (rows st) [] H) as (all & Hall & Hrun).
  simpl in Hrun.
  eexists all, _, _. split; [exact Hall|]. split; [reflexivity|].
  split; [reflexivity|].
  assert (Hperm :
    (if sort_by_birthday
     then sort_by_key days_until_birthday
            (if upcoming_only
             then filter (fun m => days_until_birthday m <= 30) all else all)
     else if upcoming_only
          then filter (fun m => days_until_birthday m <= 30) all else all)
    ≡ₚ (if upcoming_only
        then filter (fun m => days_until_birthday m <= 30) all else all)).
  { destruct sort_by_birthday; [apply sort_by_key_perm|reflexivity]. }
  split; [|split; [|split]].
  - unfold list_members. rewrite Hrun. reflexivity.
  - intros ->. split.
    + rewrite Hperm. apply Forall_forall. intros m Hm.
      now apply list_elem_of_filter in Hm as [Hm _].
    + intros m. rewrite Hperm, list_elem_of_filter. tauto.
  - intros ->. split.
    + apply sort_by_key_sorted.
    + intros k. apply sort_by_key_stable.
  - exact Hperm.
Qed.

Lemma list_members_seeded_upcoming_sorted :
  exists members,
    list_members (mkdate 2026 11 3)
      (seed_data (fun _ => "2026-11-01T08:00:00") init_db) true true
    = Ok members
    /\ Forall (fun m => days_until_birthday m <= 30) members
    /\ StronglySorted days_le members.
Proof.
  destruct (list_members_filter_then_sort (mkdate 2026 11 3)
              (seed_data (fun _ => "2026-11-01T08:00:00") init_db) true true)
    as (all & kept & members & _ & _ & _ & Hrun & Hup & Hsort & _).
  - repeat (constructor; [eexists; reflexivity|]). constructor.
  - exists members. split; [exact Hrun|].
    split; [apply (Hup eq_refl)|apply (Hsort eq_refl)].
Defined.

Example list_members_seeded :
  GET_members (mkdate 2026 11 3)
    (seed_data (fun _ => "2026-11-01T08:00:00") init_db) (Some true) None
  = Ok (map (fun '(i, f, l, b, co, ci, d) =>
               MemberResponse.mk i f l b co ci (Some d))
          [ (3, "Hans", "Mueller", "1992-11-08", "Germany", "Berlin", 5);
            (4, "Yuki", "Tanaka", "1988-01-30", "Japan", "Tokyo", 88);
            (1, "John", "Smith", "1990-03-15", "USA", "New York", 132);
            (5, "Sophie", "Martin", "1995-05-12", "Canada", "Toronto", 190);
            (2, "Emma", "Johnson", "1985-07-22", "UK", "London", 261);
            (6, "Raj", "Patel", "1987-09-25", "India", "Mumbai", 326) ]).
Proof. reflexivity. Qed.

(** C5.  The list operation does not return for every store: a member
    born on 29 February, whom the create operation accepts, makes the
    computation of the days raise in a year that is not a leap year, and
    the list operation raises with it whatever the two toggles; the
    request is answered 500. *)
Theorem list_members_raises_on_leap_day :
  let today := mkdate 2025 6 1 in
  let leap := Member.mk "Leap" "Day" "2000-02-29" "USA" "Boston" in
  let created :=
    POST_members today "2025-06-01T09:00:00"
      (seed_data (fun _ => "2025-05-01T08:00:00") init_db) leap in
  date_ok today
  /\ store_ok (snd created)
  /\ fst created = Ok (mk_created 7 leap)
  /\ (forall sort_by_birthday upcoming_only,
        list_members today (snd created) sort_by_birthday upcoming_only
        = Raise (ValueError "day is out of range for month"))
  /\ respond 200 (GET_members today (snd created) None None)
     = ServerError (ValueError "day is out of range for month").
Proof.
  cbv zeta. split; [reflexivity|]. split.
  { apply POST_members_ok, seed_data_ok, init_db_ok. }
  split; [reflexivity|]. split; [|reflexivity].
  intros [] []; reflexivity.
Qed.

(** ** Messages and the simulated send *)

Lemma tone_pattern_true (s : string) :
  tone_pattern s = true <-> s = "friendly" \/ s = "formal".
Proof.
  unfold tone_pattern. rewrite orb_true_iff, !String.eqb_eq. tauto.
Qed.

Lemma tone_pattern_false (s : string) :
  s <> "friendly" -> s <> "formal" -> tone_pattern s = false.
Proof.
  intros H1 H2. destruct (tone_pattern s) eqn:E; [|reflexivity].
  apply tone_pattern_true in E. tauto.
Qed.

Lemma Query_tone_recognized (t : option string) :
  t = None \/ t = Some "friendly" \/ t = Some "formal" ->
  Query_tone t = Ok (default "friendly" t).
Proof. intros [->|[->| ->]]; reflexivity. Qed.

(** The template of a tone that has none is the friendly one. *)
Lemma tone_templates_fallback (member : Row) (tone : string) :
  tone <> "friendly" -> tone <> "formal" ->
  get (tone_templates member) tone (tone_templates member !!! "friendly")
  = " Happy Birthday, " +:+ first_name member
    +:+ "! Wishing you an amazing day filled with joy and laughter from all of us at Datavid!".
Proof.
  intros H1 H2. unfold get, tone_templates.
  rewrite lookup_insert_ne by congruence.
  rewrite lookup_singleton_ne by congruence.
  simpl. apply lookup_total_insert_eq.
Qed.

Section Messages.

Variable MOCK_AI : bool.
Variable OPENAI_API_KEY : string.
Variable ChatCompletion_create : string -> completion.

Local Abbreviation generate_ai_message :=
  (generate_ai_message MOCK_AI OPENAI_API_KEY ChatCompletion_create).

(** The generator raises only the failure of the collaborator. *)
Lemma generate_ai_message_raises (member : Row) (tone : string) (e : exn) :
  generate_ai_message member tone = Raise e ->
  exists text, e = HTTPException 500 ("AI generation failed: " +:+ text).
Proof.
  unfold generate_ai_message.
  destruct (MOCK_AI || String.eqb OPENAI_API_KEY ""); [discriminate|].
  destruct (ChatCompletion_create _); [discriminate|].
  intros [= <-]. eauto.
Qed.

(** With the template strategy the generator returns for every tone. *)
Lemma generate_template_total (member : Row) (tone : string) :
  MOCK_AI || String.eqb OPENAI_API_KEY "" = true ->
  exists bm,
    generate_ai_message member tone = Ok bm
    /\ parameters (BirthdayMessage.explanation bm) !! "tone"
       = Some (PStr tone).
Proof.
  intros H. unfold generate_ai_message. rewrite H.
  eexists. split; [reflexivity|]. simpl. apply lookup_insert_eq.
Qed.

End Messages.

(** C10.  With the template strategy the generator returns for every
    member and every tone, and records the tone it was given in the
    parameters of the explanation; for a tone that is neither "friendly"
    nor "formal" the message is the friendly template, the one generated
    for "friendly". *)
Theorem template_generator_never_rejects_tone (MOCK_AI : bool)
    (OPENAI_API_KEY : string) (ChatCompletion_create : string -> completion)
    (member : Row) (tone : string) :
  MOCK_AI || String.eqb OPENAI_API_KEY "" = true ->
  exists bm,
    generate_ai_message MOCK_AI OPENAI_API_KEY ChatCompletion_create
      member tone = Ok bm
    /\ parameters (BirthdayMessage.explanation bm) !! "tone"
       = Some (PStr tone)
    /\ (tone <> "friendly" -> tone <> "formal" ->
        BirthdayMessage.message bm
        = " Happy Birthday, " +:+ first_name member
          +:+ "! Wishing you an amazing day filled with joy and laughter from all of us at Datavid!"
        /\ exists friendly,
             generate_ai_message MOCK_AI OPENAI_API_KEY ChatCompletion_create
               member "friendly" = Ok friendly
             /\ BirthdayMessage.message bm
                = BirthdayMessage.message friendly).
Proof.
  intros H.
  destruct (generate_template_total MOCK_AI OPENAI_API_KEY
              ChatCompletion_create member tone H) as (bm & Hbm & Htone).
  exists bm. split; [exact Hbm|]. split; [exact Htone|].
  intros H1 H2. unfold generate_ai_message in *. rewrite H in *.
  injection Hbm as <-. cbn [BirthdayMessage.message]. split.
  - now apply tone_templates_fallback.
  - eexists. split; [reflexivity|]. cbn [BirthdayMessage.message].
    rewrite (tone_templates_fallback member tone H1 H2).
    unfold get, tone_templates. rewrite lookup_insert_eq. reflexivity.
Qed.

Lemma template_generator_never_rejects_tone_witness :
  exists bm,
    generate_ai_message true "sk-test" (fun _ => Failed "unreachable")
      (mkRow 1 "John" "Smith" "1990-03-15" "USA" "New York"
         "2026-11-01T08:00:00") "sarcastic" = Ok bm
    /\ parameters (BirthdayMessage.explanation bm) !! "tone"
       = Some (PStr "sarcastic")
    /\ BirthdayMessage.message bm
       = " Happy Birthday, John! Wishing you an amazing day filled with joy and laughter from all of us at Datavid!".
Proof.
  destruct (template_generator_never_rejects_tone true "sk-test"
              (fun _ => Failed "unreachable")
              (mkRow 1 "John" "Smith" "1990-03-15" "USA" "New York"
                 "2026-11-01T08:00:00") "sarcastic" eq_refl)
    as (bm & H1 & H2 & H3).
  exists bm. split; [exact H1|]. split; [exact H2|].
  apply H3; discriminate.
Defined.

(** C7.  For every member id, in the store or not, a tone that is neither
    "friendly" nor "formal" makes both routes fail with the validation
    error of the query parameter, answered 422: the answer is the same
    whatever the store, the configuration and the collaborator, so no
    message is generated, and nothing is printed.  With no tone or with
    one of the two words the routes run their handlers and never fail
    with a validation error. *)
Theorem unrecognized_tone_rejected (MOCK_AI : bool) (OPENAI_API_KEY : string)
    (ChatCompletion_create : string -> completion) (st : Store)
    (member_id : Z) :
  let err := RequestValidationError
               [(["query"; "tone"],
                 "String should match pattern '^(friendly|formal)$'")] in
  (forall (v : string) (dry_run : option bool),
     v <> "friendly" -> v <> "formal" ->
     POST_birthday_message MOCK_AI OPENAI_API_KEY ChatCompletion_create
       st member_id (Some v) = Raise err
     /\ POST_send_email MOCK_AI OPENAI_API_KEY ChatCompletion_create
          st member_id (Some v) dry_run = (Raise err, [])
     /\ respond 200 (Raise err : result BirthdayMessage.t)
        = ErrorReply 422
            "query -> tone: String should match pattern '^(friendly|formal)$'"
     /\ respond 200 (Raise err : result send_result)
        = ErrorReply 422
            "query -> tone: String should match pattern '^(friendly|formal)$'")
  /\ (forall (t : option string) (dry_run : option bool),
        t = None \/ t = Some "friendly" \/ t = Some "formal" ->
        POST_birthday_message MOCK_AI OPENAI_API_KEY ChatCompletion_create
          st member_id t
        = generate_birthday_message MOCK_AI OPENAI_API_KEY
            ChatCompletion_create st member_id (default "friendly" t)
        /\ POST_send_email MOCK_AI OPENAI_API_KEY ChatCompletion_create
             st member_id t dry_run
           = send_birthday_email MOCK_AI OPENAI_API_KEY ChatCompletion_create
               st member_id (default "friendly" t) (default true dry_run)
        /\ (forall errors,
              POST_birthday_message MOCK_AI OPENAI_API_KEY
                ChatCompletion_create st member_id t
              <> Raise (RequestValidationError errors))
        /\ (forall errors,
              fst (POST_send_email MOCK_AI OPENAI_API_KEY
                     ChatCompletion_create st member_id t dry_run)
              <> Raise (RequestValidationError errors))).
Proof.
  intros err. split.
  - intros v dry_run H1 H2.
    unfold POST_birthday_message, POST_send_email, Query_tone.
    rewrite (tone_pattern_false v H1 H2). repeat split; reflexivity.
  - intros t dry_run Ht.
    unfold POST_birthday_message, POST_send_email.
    rewrite (Query_tone_recognized t Ht). simpl.
    split; [reflexivity|]. split; [reflexivity|]. split.
    + intros errors. unfold generate_birthday_message.
      destruct (SELECT_by_id st member_id) as [r|]; [|discriminate].
      intros E.
      destruct (generate_ai_message_raises _ _ _ _ _ _ E) as [text Ex].
      discriminate Ex.
    + intros errors. unfold send_birthday_email.
      destruct (SELECT_by_id st member_id) as [r|]; [|discriminate].
      destruct (generate_ai_message MOCK_AI OPENAI_API_KEY
                  ChatCompletion_create r (default "friendly" t)) eqn:G.
      * destruct (default true dry_run); discriminate.
      * simpl. intros [= ->].
        destruct (generate_ai_message_raises _ _ _ _ _ _ G) as [text Ex].
        discriminate Ex.
Qed.

Lemma unrecognized_tone_rejected_witness :
  respond 200
    (POST_birthday_message true "sk-test" (fun _ => Failed "unreachable")
       (seed_data (fun _ => "2026-11-01T08:00:00") init_db) 1
       (Some "invalid"))
  = ErrorReply 422
      "query -> tone: String should match pattern '^(friendly|formal)$'"
  /\ (forall errors,
        POST_birthday_message true "sk-test" (fun _ => Failed "unreachable")
          (seed_data (fun _ => "2026-11-01T08:00:00") init_db) 1
          (Some "formal")
        <> Raise (RequestValidationError errors)).
Proof.
  pose proof (unrecognized_tone_rejected true "sk-test"
                (fun _ => Failed "unreachable")
                (seed_data (fun _ => "2026-11-01T08:00:00") init_db) 1)
    as [Hbad Hgood].
  split.
  - destruct (Hbad "invalid" None) as (H1 & _ & H3 & _);
      [discriminate|discriminate|]. rewrite H1. exact H3.
  - destruct (Hgood (Some "formal") None) as (_ & _ & H & _); [auto|].
    exact H.
Defined.



(** ** More on the days until the birthday *)

Section Countdown.

(** What a returned number tells: the dates the function built exist, and
    the number is the distance to the one it chose. *)
Lemma calculate_Ok_inv (today birth : date) (s : string) (n : Z) :
  strptime_date s = Ok birth ->
  calculate_days_until_birthday today s = Ok n ->
  let cand := mkdate (year today) (month birth) (day birth) in
  let next := mkdate (year today + 1) (month birth) (day birth) in
  date_ok cand
  /\ (date_lt cand today = true -> date_ok next)
  /\ n = date_sub_days (if date_lt cand today then next else cand) today.
Proof.
  intros Hs. unfold calculate_days_until_birthday. rewrite Hs. simpl.
  destruct (date_new (year today) (month birth) (day birth)) as [c|e] eqn:Hc;
    simpl; [|discriminate].
  pose proof Hc as Hc'. apply date_new_Ok in Hc' as [-> _].
  destruct (date_lt (mkdate (year today) (month birth) (day birth)) today)
    eqn:Hlt.
  - destruct (date_new (year today + 1) (month birth) (day birth))
      as [c'|e] eqn:Hn; simpl; [|discriminate].
    pose proof Hn as Hn'. apply date_new_Ok in Hn' as [-> _].
    intros [= <-]. repeat split; [exact Hc|intros _; exact Hn].
  - simpl. intros [= <-]. repeat split; [exact Hc|discriminate].
Qed.

(** The same month and day one year later is 365 or 366 days later. *)
Lemma next_year_365_or_366 (y m d : Z) :
  1 <= y -> 1 <= m <= 12 ->
  365 <= _ymd2ord (y + 1) m d - _ymd2ord y m d <= 366.
Proof.
  intros Hy Hm. unfold _ymd2ord, _days_before_month.
  rewrite days_before_year_succ by assumption.
  pose proof (leap_not_twice y) as Hl.
  destruct (_is_leap y), (_is_leap (y + 1));
    try (specialize (Hl eq_refl); discriminate Hl);
    destruct (m >? 2); simpl; lia.
Qed.

(** The day after [today] is in the same year, or it is the first day of
    the next year and [today] is the last day of its year. *)
Lemma tomorrow_cases (today tomorrow : date) :
  date_ok today -> date_ok tomorrow ->
  toordinal tomorrow = toordinal today + 1 ->
  year tomorrow = year today
  \/ (tomorrow = mkdate (year today + 1) 1 1
      /\ toordinal today = _days_before_year (year today + 1)).
Proof.
  intros Ht Hm Hord.
  pose proof Ht as Ht'. pose proof Hm as Hm'.
  apply date_ok_fields in Ht' as (Hty & Htm & Htd).
  apply date_ok_fields in Hm' as (Hmy & Hmm & Hmd).
  destruct (Z.eq_dec (year tomorrow) (year today)) as [Ey|Ney]; [now left|].
  right.
  pose proof (ymd2ord_in_year _ _ _ (proj1 Hty) Htm Htd) as Bt.
  pose proof (ymd2ord_in_year _ _ _ (proj1 Hmy) Hmm Hmd) as Bm.
  fold (toordinal today) in Bt. fold (toordinal tomorrow) in Bm.
  assert (Hy : year tomorrow = year today + 1).
  { destruct (Z_lt_le_dec (year tomorrow) (year today)) as [L|G].
    - assert (Hlt : date_lt tomorrow today = true).
      { unfold date_lt. apply Z.ltb_lt in L. now rewrite L. }
      pose proof (toordinal_lt _ _ Hm Ht Hlt). lia.
    - destruct (Z.eq_dec (year tomorrow) (year today + 1)); [assumption|].
      pose proof (days_before_year_mono (year today + 1) (year tomorrow)).
      lia. }
  rewrite Hy in Bm.
  assert (Hfirst : month tomorrow = 1 /\ day tomorrow = 1).
  { unfold toordinal in Hord at 1. rewrite Hy in Hord.
    unfold _ymd2ord, _days_before_month in Hord.
    unfold _days_in_month in Hmd. rewrite Hy in Hmd. clear Bm.
    set (D := _days_before_year (year today + 1)) in *.
    set (O := toordinal today) in *.
    destruct (month_cases _ Hmm) as
      [E|[E|[E|[E|[E|[E|[E|[E|[E|[E|[E|E]]]]]]]]]]];
      rewrite E in *; destruct (_is_leap (year today + 1));
      simpl in *; lia. }
  destruct Hfirst as [M1 D1]. split.
  - destruct tomorrow; simpl in *. now subst.
  - unfold toordinal in Hord at 1. unfold _ymd2ord, _days_before_month in Hord.
    rewrite Hy, M1, D1 in Hord. simpl in Hord. lia.
Qed.

Lemma date_lt_of_ordinal (a b : date) :
  date_ok a -> date_ok b -> toordinal a < toordinal b -> date_lt a b = true.
Proof.
  intros Ha Hb H. destruct (date_lt a b) eqn:E; [reflexivity|].
  pose proof (toordinal_ge a b Ha Hb E). lia.
Qed.

Lemma date_ge_of_ordinal (a b : date) :
  date_ok a -> date_ok b -> toordinal b <= toordinal a -> date_lt a b = false.
Proof.
  intros Ha Hb H. destruct (date_lt a b) eqn:E; [|reflexivity].
  pose proof (toordinal_lt a b Ha Hb E). lia.
Qed.

End Countdown.

(** X1.  A number the function returns is between 0 and 365, and it is 0
    exactly when the birth month and day are those of today. *)
Theorem days_until_zero_iff_birthday (today birth : date) (s : string)
    (n : Z) :
  date_ok today ->
  strptime_date s = Ok birth ->
  calculate_days_until_birthday today s = Ok n ->
  0 <= n <= 365
  /\ (n = 0 <-> (month birth, day birth) = (month today, day today)).
Proof.
  intros Ht Hs Hn.
  destruct (calculate_Ok_inv today birth s n Hs Hn) as (Hc & Hnext & Hval).
  cbv zeta in *.
  set (cand := mkdate (year today) (month birth) (day birth)) in *.
  set (next := mkdate (year today + 1) (month birth) (day birth)) in *.
  split.
  - rewrite Hval. now apply (days_until_range today cand next).
  - split.
    + intros H0. subst n. unfold date_sub_days in H0.
      destruct (date_lt cand today) eqn:Hlt.
      * specialize (Hnext eq_refl).
        assert (E : next = today) by (apply toordinal_inj; [assumption..|lia]).
        apply (f_equal year) in E. simpl in E. lia.
      * assert (E : cand = today) by (apply toordinal_inj; [assumption..|lia]).
        rewrite <- E. reflexivity.
    + intros E. pose proof (same_day_zero today birth s Ht Hs E) as H0.
      congruence.
Qed.

Lemma days_until_zero_iff_birthday_witness :
  0 <= 364 <= 365
  /\ (364 = 0 <-> (11, 2) = (11, 3)).
Proof.
  exact (days_until_zero_iff_birthday (mkdate 2026 11 3) (mkdate 1990 11 2)
           "1990-11-02" 364 eq_refl eq_refl eq_refl).
Defined.

(** X2.  The number counts down: when it is positive today, it is one
    less on the next day, the end of the year included. *)
Theorem days_until_counts_down (today tomorrow : date) (s : string) (n : Z) :
  date_ok today -> date_ok tomorrow ->
  toordinal tomorrow = toordinal today + 1 ->
  calculate_days_until_birthday today s = Ok n ->
  0 < n ->
  calculate_days_until_birthday tomorrow s = Ok (n - 1).
Proof.
  intros Ht Hm Hord Hn Hpos.
  destruct (strptime_date s) as [birth|e] eqn:Hs;
    [|unfold calculate_days_until_birthday in Hn; rewrite Hs in Hn;
      discriminate Hn].
  destruct (calculate_Ok_inv today birth s n Hs Hn) as (Hc & Hnext & Hval).
  cbv zeta in *.
  set (cand := mkdate (year today) (month birth) (day birth)) in *.
  set (next := mkdate (year today + 1) (month birth) (day birth)) in *.
  unfold date_sub_days in Hval.
  destruct (tomorrow_cases today tomorrow Ht Hm Hord) as [Ey|[Etm Hlast]].
  - (* the next day is in the same year: the candidate is the same *)
    assert (Hcm : mkdate (year tomorrow) (month birth) (day birth) = cand)
      by (now rewrite Ey).
    assert (Hnm : mkdate (year tomorrow + 1) (month birth) (day birth) = next)
      by (now rewrite Ey).
    rewrite (calculate_unfold tomorrow birth s Hs); rewrite ?Hcm, ?Hnm.
    + destruct (date_lt cand today) eqn:Hlt.
      * pose proof (toordinal_lt _ _ Hc Ht Hlt) as L.
        rewrite (date_lt_of_ordinal cand tomorrow Hc Hm) by lia.
        unfold date_sub_days. f_equal. lia.
      * rewrite (date_ge_of_ordinal cand tomorrow Hc Hm) by lia.
        unfold date_sub_days. f_equal. lia.
    + exact Hc.
    + intros Hlt'. apply Hnext.
      pose proof (toordinal_lt _ _ Hc Hm Hlt') as L.
      destruct (date_lt cand today) eqn:Hlt; [reflexivity|]. lia.
  - (* today is the last day of its year *)
    pose proof Hc as Hc'. apply date_ok_fields in Hc' as (Hcy & Hcm & Hcd).
    pose proof (ymd2ord_in_year _ _ _ (proj1 Hcy) Hcm Hcd) as Bc.
    fold (toordinal cand) in Bc. simpl in Bc.
    assert (Hlt : date_lt cand today = true).
    { destruct (date_lt cand today) eqn:Hlt; [reflexivity|]. lia. }
    rewrite Hlt in Hval. specialize (Hnext Hlt).
    assert (Hcm' : mkdate (year tomorrow) (month birth) (day birth) = next)
      by (now rewrite Etm).
    pose proof Hnext as Hn'. apply date_ok_fields in Hn' as (Hny & Hnm & Hnd).
    pose proof (ymd2ord_in_year _ _ _ (proj1 Hny) Hnm Hnd) as Bn.
    fold (toordinal next) in Bn. simpl in Bn.
    rewrite (calculate_unfold tomorrow birth s Hs); rewrite ?Hcm'.
    + rewrite (date_ge_of_ordinal next tomorrow Hnext Hm) by lia.
      unfold date_sub_days. f_equal. lia.
    + exact Hnext.
    + intros Hlt'. pose proof (toordinal_lt _ _ Hnext Hm Hlt'). lia.
Qed.

Lemma days_until_counts_down_witness :
  calculate_days_until_birthday (mkdate 2027 1 1) "1990-01-30" = Ok 29.
Proof.
  exact (days_until_counts_down (mkdate 2026 12 31) (mkdate 2027 1 1)
           "1990-01-30" 30 eq_refl eq_refl eq_refl eq_refl eq_refl).
Defined.

(** X3.  A birthday whose month and day are those of yesterday, when
    yesterday was in this year and the month and day exist next year, is
    364 or 365 days away. *)
Theorem days_until_after_yesterday (today yesterday birth : date)
    (s : string) :
  date_ok today -> date_ok yesterday ->
  toordinal yesterday = toordinal today - 1 ->
  year yesterday = year today ->
  strptime_date s = Ok birth ->
  (month birth, day birth) = (month yesterday, day yesterday) ->
  date_ok (mkdate (year today + 1) (month birth) (day birth)) ->
  exists n,
    calculate_days_until_birthday today s = Ok n /\ (n = 364 \/ n = 365).
Proof.
  intros Ht Hy Hord Hyear Hs E Hnext. injection E as Em Ed.
  assert (Hc : mkdate (year today) (month birth) (day birth) = yesterday).
  { rewrite Em, Ed, <- Hyear. destruct yesterday; reflexivity. }
  assert (Hlt : date_lt yesterday today = true)
    by (apply date_lt_of_ordinal; [assumption..|lia]).
  eexists. split.
  - rewrite (calculate_unfold today birth s Hs); rewrite ?Hc;
      [rewrite Hlt; reflexivity|exact Hy|intros _; exact Hnext].
  - unfold date_sub_days. rewrite <- Hc in Hord, Hy.
    apply date_ok_fields in Hy as (Hyy & Hym & _). simpl in Hyy, Hym.
    pose proof (next_year_365_or_366 (year today) (month birth) (day birth)
                  (proj1 Hyy) Hym) as W.
    unfold toordinal in *. simpl in *. lia.
Qed.

Lemma days_until_after_yesterday_witness :
  exists n,
    calculate_days_until_birthday (mkdate 2026 11 3) "1990-11-02" = Ok n
    /\ (n = 364 \/ n = 365).
Proof.
  exact (days_until_after_yesterday (mkdate 2026 11 3) (mkdate 2026 11 2)
           (mkdate 1990 11 2) "1990-11-02"
           eq_refl eq_refl eq_refl eq_refl eq_refl eq_refl eq_refl).
Defined.

(** ** More on the validator *)

Section Adult.

Lemma date_lt_iff (a b : date) :
  date_lt a b = true <->
  year a < year b
  \/ (year a = year b
      /\ (month a < month b \/ (month a = month b /\ day a < day b))).
Proof.
  unfold date_lt, pair_lt. simpl.
  rewrite !orb_true_iff, !andb_true_iff, !orb_true_iff, !andb_true_iff,
    !Z.ltb_lt, !Z.eqb_eq. tauto.
Qed.

Lemma date_lt_false_iff (a b : date) :
  date_lt a b = false <->
  year b < year a
  \/ (year a = year b
      /\ (month b < month a \/ (month a = month b /\ day b <= day a))).
Proof.
  destruct (date_lt a b) eqn:E.
  - apply date_lt_iff in E. split; [discriminate|lia].
  - split; [|reflexivity]. intros _.
    assert (H : ~ (year a < year b
                   \/ (year a = year b
                       /\ (month a < month b
                           \/ (month a = month b /\ day a < day b))))).
    { rewrite <- date_lt_iff. congruence. }
    lia.
Qed.

(** The age is below 18 exactly when today is before the birth month and
    day of the year 18 after the birth year. *)
Lemma age_below_18_iff (today birth : date) :
  Member.age today birth < 18
  <-> date_lt today (mkdate (year birth + 18) (month birth) (day birth))
      = true.
Proof.
  rewrite date_lt_iff. unfold Member.age, pair_lt. simpl.
  destruct (Z.ltb_spec (month today) (month birth));
    destruct (Z.eqb_spec (month today) (month birth));
    destruct (Z.ltb_spec (day today) (day birth)); simpl; lia.
Qed.

End Adult.

(** X4.  The validator accepts a birth date text that parses exactly when
    the eighteenth birthday, the birth month and day in the year 18 after
    the birth year, is not after today; it then returns the text, and it
    raises the underage error otherwise. *)
Theorem adult_iff_eighteenth_birthday_reached (today birth : date)
    (v : string) :
  strptime_date v = Ok birth ->
  let eighteenth := mkdate (year birth + 18) (month birth) (day birth) in
  (Member.validate_birth_date today v = Ok v
   <-> date_lt today eighteenth = false)
  /\ (date_lt today eighteenth = true ->
      Member.validate_birth_date today v
      = Raise (ValueError
          ("Member must be at least 18 years old. Current age would be "
           +:+ str (Member.age today birth)))).
Proof.
  intros Hs eighteenth. unfold Member.validate_birth_date. rewrite Hs.
  pose proof (age_below_18_iff today birth) as Hage.
  fold eighteenth in Hage.
  destruct (Z.ltb_spec (Member.age today birth) 18) as [Hlt|Hge].
  - apply Hage in Hlt. rewrite Hlt. split; [|reflexivity].
    split; intros H; discriminate H.
  - destruct (date_lt today eighteenth) eqn:E.
    + pose proof (proj2 Hage eq_refl). lia.
    + split; [|discriminate]. split; reflexivity.
Qed.

Lemma adult_iff_eighteenth_birthday_reached_witness :
  Member.validate_birth_date (mkdate 2026 11 3) "2008-11-03" = Ok "2008-11-03"
  /\ Member.validate_birth_date (mkdate 2026 11 3) "2008-11-04"
     = Raise (ValueError
         "Member must be at least 18 years old. Current age would be 17").
Proof.
  split.
  - apply (proj1 (adult_iff_eighteenth_birthday_reached (mkdate 2026 11 3)
                    (mkdate 2008 11 3) "2008-11-03" eq_refl)).
    reflexivity.
  - apply (proj2 (adult_iff_eighteenth_birthday_reached (mkdate 2026 11 3)
                    (mkdate 2008 11 4) "2008-11-04" eq_refl)).
    reflexivity.
Defined.

(** X5.  A birth date text the validator accepts on one day is accepted
    on every later day. *)
Theorem adult_stays_adult (today later : date) (v : string) :
  Member.validate_birth_date today v = Ok v ->
  date_lt later today = false ->
  Member.validate_birth_date later v = Ok v.
Proof.
  unfold Member.validate_birth_date.
  destruct (strptime_date v) as [birth|[]]; try discriminate.
  destruct (Z.ltb_spec (Member.age today birth) 18) as [|Hge];
    [discriminate|].
  intros _ Hlater.
  destruct (Z.ltb_spec (Member.age later birth) 18) as [Hlt|]; [|reflexivity].
  apply age_below_18_iff in Hlt. apply date_lt_iff in Hlt. simpl in Hlt.
  apply date_lt_false_iff in Hlater.
  assert (Hnot : date_lt today
                   (mkdate (year birth + 18) (month birth) (day birth))
                 = false).
  { destruct (date_lt today _) eqn:E; [|reflexivity].
    apply age_below_18_iff in E. lia. }
  apply date_lt_false_iff in Hnot. simpl in Hnot. lia.
Qed.

Lemma adult_stays_adult_witness :
  Member.validate_birth_date (mkdate 2031 2 28) "2008-11-03" = Ok "2008-11-03".
Proof.
  exact (adult_stays_adult (mkdate 2026 11 3) (mkdate 2031 2 28) "2008-11-03"
           eq_refl eq_refl).
Defined.

(** *** Reading back a written date *)

Section WriteRead.

Lemma zfill4_digits_all :
  forallb (fun k =>
    match zfill 4 (str (Z.of_nat k)) with
    | String a (String b (String c (String d EmptyString))) =>
        is_digit a && is_digit b && is_digit c && is_digit d
        && (int (String a (String b (String c (String d EmptyString))))
            =? Z.of_nat k)
    | _ => false
    end) (seq 0 (Z.to_nat 10000)) = true.
Proof. vm_compute. reflexivity. Qed.

Lemma zfill2_digits_all :
  forallb (fun k =>
    match zfill 2 (str (Z.of_nat k)) with
    | String a (String b EmptyString) =>
        is_digit a && is_digit b
        && (int (String a (String b EmptyString)) =? Z.of_nat k)
    | _ => false
    end) (seq 0 (Z.to_nat 100)) = true.
Proof. vm_compute. reflexivity. Qed.

(** A number below 10000 is written on four digits that read as it. *)
Lemma zfill4_digits (n : Z) :
  0 <= n < 10000 ->
  exists a b c d,
    zfill 4 (str n) = String a (String b (String c (String d EmptyString)))
    /\ is_digit a = true /\ is_digit b = true /\ is_digit c = true
    /\ is_digit d = true
    /\ int (String a (String b (String c (String d EmptyString)))) = n.
Proof.
  intros Hn. pose proof zfill4_digits_all as H.
  rewrite forallb_forall in H. specialize (H (Z.to_nat n)).
  rewrite Z2Nat.id in H by lia.
  assert (Hin : In (Z.to_nat n) (seq 0 (Z.to_nat 10000)))
    by (apply in_seq; lia).
  specialize (H Hin).
  destruct (zfill 4 (str n)) as [|a [|b [|c [|d [|? ?]]]]]; try discriminate.
  rewrite !andb_true_iff in H. destruct H as ((((Ha & Hb) & Hc) & Hd) & Hi).
  apply Z.eqb_eq in Hi. exists a, b, c, d. auto 10.
Qed.

(** A number below 100 is written on two digits that read as it. *)
Lemma zfill2_digits (n : Z) :
  0 <= n < 100 ->
  exists a b,
    zfill 2 (str n) = String a (String b EmptyString)
    /\ is_digit a = true /\ is_digit b = true
    /\ int (String a (String b EmptyString)) = n.
Proof.
  intros Hn. pose proof zfill2_digits_all as H.
  rewrite forallb_forall in H. specialize (H (Z.to_nat n)).
  rewrite Z2Nat.id in H by lia.
  assert (Hin : In (Z.to_nat n) (seq 0 (Z.to_nat 100)))
    by (apply in_seq; lia).
  specialize (H Hin).
  destruct (zfill 2 (str n)) as [|a [|b [|? ?]]]; try discriminate.
  rewrite !andb_true_iff in H. destruct H as ((Ha & Hb) & Hi).
  apply Z.eqb_eq in Hi. exists a, b. auto.
Qed.

(** The written text is of the strict form and writes the fields. *)
Lemma strftime_strict (d : date) :
  date_ok d ->
  strict_YYYY_MM_DD (strftime_Ymd d) = Some (year d, month d, day d).
Proof.
  intros Hd. apply date_ok_fields in Hd as (Hy & Hm & Hday).
  pose proof (days_in_month_le_31 (year d) (month d)) as H31.
  destruct (zfill4_digits (year d)) as (a & b & c & e & Et & Ha & Hb & Hc & He & Hi);
    [lia|].
  destruct (zfill2_digits (month d)) as (m1 & m2 & Etm & Hm1 & Hm2 & Him);
    [lia|].
  destruct (zfill2_digits (day d)) as (d1 & d2 & Etd & Hd1 & Hd2 & Hid);
    [lia|].
  unfold strftime_Ymd. rewrite Et, Etm, Etd.
  cbv [String.append]. unfold strict_YYYY_MM_DD.
  rewrite Ha, Hb, Hc, He, Hm1, Hm2, Hd1, Hd2. simpl.
  now rewrite Hi, Him, Hid.
Qed.

End WriteRead.

(** X6.  A date of a year from 1000, written with [strftime('%Y-%m-%d')],
    is read back by the parser as the same date, and written as the birth
    date it gives 0 days until the birthday on that very day. *)
Theorem strftime_strptime_round_trip (d : date) :
  date_ok d ->
  1000 <= year d ->
  strptime_date (strftime_Ymd d) = Ok d
  /\ calculate_days_until_birthday d (strftime_Ymd d) = Ok 0.
Proof.
  intros Hd _.
  assert (Hp : strptime_date (strftime_Ymd d) = Ok d).
  { apply (strptime_date_strict _ (year d) (month d) (day d));
      [now apply strftime_strict|exact Hd]. }
  split; [exact Hp|].
  now apply (same_day_zero d d).
Qed.

Lemma strftime_strptime_round_trip_witness :
  strptime_date (strftime_Ymd (mkdate 2024 2 29)) = Ok (mkdate 2024 2 29)
  /\ calculate_days_until_birthday (mkdate 2024 2 29)
       (strftime_Ymd (mkdate 2024 2 29)) = Ok 0.
Proof.
  apply (strftime_strptime_round_trip (mkdate 2024 2 29)); [reflexivity|].
  vm_compute. discriminate.
Defined.

(** ** More on creating members *)

Section CreateMore.

(** The validator of the model raises only the request validation error. *)
Lemma validate_raises (today : date) (body : Member.t) (e : exn) :
  Member.validate today body = Raise e ->
  exists msg,
    e = RequestValidationError
          [(["body"; "birth_date"], "Value error, " +:+ msg)].
Proof.
  unfold Member.validate, Member.validate_birth_date.
  destruct (strptime_date (Member.birth_date body)) as [birth|e'] eqn:Hp.
  - destruct (Member.age today birth <? 18); [|discriminate].
    intros [= <-]. eauto.
  - destruct (strptime_date_raises _ _ Hp) as [msg ->].
    intros [= <-]. eauto.
Qed.

(** What a successful create tells. *)
Lemma POST_members_Ok_inv (today : date) (now : string) (st st' : Store)
    (body : Member.t) (c : created) :
  POST_members today now st body = (Ok c, st') ->
  Member.validate today body = Ok body
  /\ existsb (same_key body) (rows st) = false
  /\ c = mk_created (id (new_row st body now)) body
  /\ st' = mkStore (rows st ++ [new_row st body now])
             (id (new_row st body now)).
Proof.
  unfold POST_members.
  destruct (Member.validate today body) as [m|e] eqn:Hv; [|discriminate].
  pose proof (validate_Ok _ _ _ Hv) as ->.
  destruct (existsb (same_key body) (rows st)) eqn:He.
  - rewrite (create_member_taken now st body He). discriminate.
  - rewrite (create_member_fresh now st body He). intros [= <- <-]. auto.
Qed.

(** A create that does not succeed leaves the table as it was. *)
Lemma POST_members_Raise_inv (today : date) (now : string) (st st' : Store)
    (body : Member.t) (e : exn) :
  POST_members today now st body = (Raise e, st') ->
  st' = st
  /\ ((exists errors, e = RequestValidationError errors)
      \/ (exists detail, e = HTTPException 400 detail)).
Proof.
  unfold POST_members.
  destruct (Member.validate today body) as [m|e'] eqn:Hv.
  - pose proof (validate_Ok _ _ _ Hv) as ->.
    destruct (existsb (same_key body) (rows st)) eqn:He.
    + rewrite (create_member_taken now st body He). intros [= <- <-].
      split; [reflexivity|right; eauto].
    + rewrite (create_member_fresh now st body He). discriminate.
  - destruct (validate_raises _ _ _ Hv) as [msg ->]. intros [= <- <-].
    split; [reflexivity|left; eauto].
Qed.

Lemma StronglySorted_app_inv_r {A} (R : A -> A -> Prop) (l k : list A) :
  StronglySorted R (l ++ k) -> StronglySorted R k.
Proof.
  induction l as [|x l IH]; simpl; [trivial|].
  intros H. apply StronglySorted_inv in H as [H _]. now apply IH.
Qed.

Lemma StronglySorted_map {A B} (R : B -> B -> Prop) (f : A -> B)
    (l : list A) :
  StronglySorted (fun a b => R (f a) (f b)) l -> StronglySorted R (map f l).
Proof.
  induction 1 as [|x l Hs IH Hx]; simpl; constructor; [exact IH|].
  apply Forall_forall. intros y Hy. apply list_elem_of_In in Hy.
  apply in_map_iff in Hy as (z & <- & Hz).
  rewrite Forall_forall in Hx. apply Hx. now apply list_elem_of_In.
Qed.

(** Requests in a row only append rows, one for each success. *)
Lemma POST_members_seq_rows (reqs : list (date * string * Member.t))
    (st : Store) :
  store_ok st ->
  store_ok (snd (POST_members_seq reqs st))
  /\ exists added,
       rows (snd (POST_members_seq reqs st)) = rows st ++ added
       /\ map id added = created_ids (fst (POST_members_seq reqs st)).
Proof.
  revert st. induction reqs as [|[[today now] body] rest IH]; intros st Hok.
  - simpl. split; [exact Hok|]. exists []. now rewrite app_nil_r.
  - simpl.
    destruct (POST_members today now st body) as [r st1] eqn:Hp.
    assert (Hok1 : store_ok st1).
    { pose proof (POST_members_ok today now st body Hok) as H.
      now rewrite Hp in H. }
    destruct (IH st1 Hok1) as (Hok2 & added & Hrows & Hids).
    destruct (POST_members_seq rest st1) as [rs st2] eqn:Hseq.
    simpl in *. split; [exact Hok2|].
    destruct r as [c|e].
    + apply POST_members_Ok_inv in Hp as (_ & _ & -> & ->).
      exists (new_row st body now :: added). simpl in *.
      rewrite Hrows, <- app_assoc. split; [reflexivity|]. now rewrite Hids.
    + apply POST_members_Raise_inv in Hp as [-> _].
      exists added. auto.
Qed.

End CreateMore.

(** *** A body that is any JSON object *)

Section JSONBody.

Variable today : date.
Variable body : gmap string json.






End JSONBody.


Example create_answers_five_errors :
  fst (POST_members_json (mkdate 2026 11 3) "t1" init_db
         {[ "first_name" := JNumber "1"; "last_name" := JNull;
            "birth_date" := JString "2016-11-05"; "city" := JArray [];
            "nickname" := JString "x" ]})
  = Raise (RequestValidationError
      [ (["body"; "first_name"], "Input should be a valid string");
        (["body"; "last_name"], "Input should be a valid string");
        (["body"; "birth_date"],
         "Value error, Member must be at least 18 years old. Current age would be 9");
        (["body"; "country"], "Field required");
        (["body"; "city"], "Input should be a valid string") ]).
Proof. vm_compute. reflexivity. Qed.

(** X8.  Create requests served in a row, from a table in order with its
    constraint kept, leave such a table: no row is changed or removed, one
    row is appended for each success, under the id the answer carries, and
    these ids increase from one success to the next. *)
Theorem creates_keep_the_table (reqs : list (date * string * Member.t))
    (st : Store) :
  store_ok st ->
  let answers := fst (POST_members_seq reqs st) in
  let st' := snd (POST_members_seq reqs st) in
  store_ok st'
  /\ (exists added,
        rows st' = rows st ++ added
        /\ map id added = created_ids answers)
  /\ StronglySorted Z.lt (created_ids answers)
  /\ Forall (fun i => Forall (fun r => id r < i) (rows st))
       (created_ids answers).
Proof.
  intros Hok answers st'.
  destruct (POST_members_seq_rows reqs st Hok) as (Hok' & added & Hrows & Hids).
  fold st' in Hok', Hrows. fold answers in Hids.
  split; [exact Hok'|]. split; [now exists added|].
  destruct Hok' as [Hsorted _]. rewrite Hrows in Hsorted. split.
  - rewrite <- Hids. apply StronglySorted_map.
    now apply StronglySorted_app_inv_r in Hsorted.
  - rewrite <- Hids. apply Forall_forall. intros i Hi.
    apply list_elem_of_In in Hi. apply in_map_iff in Hi as (a & <- & Ha).
    apply Forall_forall. intros r Hr.
    clear - Hsorted Ha Hr. revert Hsorted.
    induction (rows st) as [|x l IH]; [now apply elem_of_nil in Hr|].
    simpl. intros Hs. apply StronglySorted_inv in Hs as [Hs Hx].
    apply elem_of_cons in Hr as [->|Hr]; [|now apply IH].
    rewrite Forall_forall in Hx. apply Hx. apply elem_of_app. right.
    now apply list_elem_of_In.
Qed.

Lemma creates_keep_the_table_witness :
  StronglySorted Z.lt
    (created_ids
       (fst (POST_members_seq
               [ (mkdate 2026 11 3, "t1",
                  Member.mk "Test" "User" "1990-01-01" "USA" "Boston");
                 (mkdate 2026 11 3, "t2",
                  Member.mk "Test" "User" "1980-01-01" "USA" "Boston");
                 (mkdate 2026 11 4, "t3",
                  Member.mk "Other" "User" "1990-01-01" "USA" "Boston") ]
               (seed_data (fun _ => "t0") init_db)))).
Proof.
  apply (creates_keep_the_table _ (seed_data (fun _ => "t0") init_db)).
  apply seed_data_ok, init_db_ok.
Defined.

Section Seed.

Lemma INSERT_OR_IGNORE_rows (st : Store) (m : Member.t) (now : string) :
  rows (INSERT_OR_IGNORE st m now)
  = rows st ++ (if existsb (same_key m) (rows st) then []
                else [new_row st m now]).
Proof.
  unfold INSERT_OR_IGNORE, INSERT.
  destruct (existsb (same_key m) (rows st)); simpl;
    [now rewrite app_nil_r|reflexivity].
Qed.

Lemma same_key_new_row (st : Store) (m : Member.t) (now : string) :
  same_key m (new_row st m now) = true.
Proof. unfold same_key, new_row. simpl. now rewrite !String.eqb_refl. Qed.

Lemma held_after_INSERT_OR_IGNORE (st : Store) (m : Member.t) (now : string) :
  existsb (same_key m) (rows (INSERT_OR_IGNORE st m now)) = true.
Proof.
  rewrite INSERT_OR_IGNORE_rows, existsb_app.
  destruct (existsb (same_key m) (rows st)) eqn:He; [reflexivity|].
  simpl. now rewrite same_key_new_row.
Qed.

Lemma seed_from_rows (clock : nat -> string) (ms : list Member.t) (i : nat)
    (st : Store) :
  exists added, rows (seed_from clock i ms st) = rows st ++ added.
Proof.
  revert i st. induction ms as [|m ms IH]; intros i st; simpl.
  - exists []. now rewrite app_nil_r.
  - destruct (IH (S i) (INSERT_OR_IGNORE st m (clock i))) as [added H].
    rewrite INSERT_OR_IGNORE_rows, <- app_assoc in H. eauto.
Qed.

Lemma seed_from_held (clock : nat -> string) (ms : list Member.t) (i : nat)
    (st : Store) :
  Forall (fun m => existsb (same_key m) (rows (seed_from clock i ms st))
                   = true) ms.
Proof.
  revert i st. induction ms as [|m ms IH]; intros i st; simpl; constructor.
  - destruct (seed_from_rows clock ms (S i) (INSERT_OR_IGNORE st m (clock i)))
      as [added ->].
    rewrite existsb_app, held_after_INSERT_OR_IGNORE. reflexivity.
  - apply IH.
Qed.

Lemma seed_from_all_held (clock : nat -> string) (ms : list Member.t)
    (i : nat) (st : Store) :
  Forall (fun m => existsb (same_key m) (rows st) = true) ms ->
  rows (seed_from clock i ms st) = rows st.
Proof.
  revert i st. induction ms as [|m ms IH]; intros i st H; simpl;
    [reflexivity|].
  apply Forall_cons in H as [Hm Hms].
  assert (Hrows : rows (INSERT_OR_IGNORE st m (clock i)) = rows st).
  { rewrite INSERT_OR_IGNORE_rows, Hm. apply app_nil_r. }
  rewrite IH; [exact Hrows|]. now rewrite Hrows.
Qed.

End Seed.

(** X9.  Seeding changes and removes no row of the table; after it every
    sample member's tuple is held; and seeding again, at any later time,
    adds no row. *)
Theorem seed_data_idempotent (clock clock' : nat -> string) (st : Store) :
  (exists added, rows (seed_data clock st) = rows st ++ added)
  /\ Forall (fun m => existsb (same_key m) (rows (seed_data clock st)) = true)
       sample_members
  /\ rows (seed_data clock' (seed_data clock st)) = rows (seed_data clock st)
  /\ (store_ok st -> store_ok (seed_data clock' (seed_data clock st))).
Proof.
  split; [exact (seed_from_rows clock sample_members 0 st)|].
  split; [exact (seed_from_held clock sample_members 0 st)|]. split.
  - exact (seed_from_all_held clock' sample_members 0 (seed_data clock st)
             (seed_from_held clock sample_members 0 st)).
  - intros H.
    exact (seed_data_ok clock' _ (seed_data_ok clock st H)).
Qed.

(** ** More on reading members *)

Section SortFilter.

Context {A : Type} (key : A -> Z) (P : A -> Prop) `{!forall x, Decision (P x)}.

Lemma insert_by_key_head (x : A) (l : list A) :
  Forall (fun z => key x <= key z) l -> insert_by_key key x l = x :: l.
Proof.
  destruct 1 as [|y l Hy _]; simpl; [reflexivity|].
  apply Z.leb_le in Hy. now rewrite Hy.
Qed.

(** Filtering a sorted list after an insertion is inserting, when the
    element is kept, into the filtered list. *)
Lemma filter_insert_by_key (x : A) (l : list A) :
  StronglySorted (fun a b => key a <= key b) l ->
  filter P (insert_by_key key x l)
  = if decide (P x) then insert_by_key key x (filter P l) else filter P l.
Proof.
  induction 1 as [|y l Hs IH Hy]; simpl.
  - rewrite filter_cons, filter_nil. now destruct (decide (P x)).
  - destruct (key x <=? key y) eqn:Hxy.
    + apply Z.leb_le in Hxy. rewrite (filter_cons _ x).
      destruct (decide (P x)) as [Hx|Hx]; [|reflexivity].
      symmetry. apply insert_by_key_head.
      apply Forall_forall. intros z Hz.
      apply list_elem_of_filter in Hz as [_ Hz].
      apply elem_of_cons in Hz as [->|Hz]; [exact Hxy|].
      rewrite Forall_forall in Hy. specialize (Hy z Hz). simpl in Hy. lia.
    + rewrite !(filter_cons _ y), IH.
      destruct (decide (P y)), (decide (P x)); simpl; try reflexivity.
      now rewrite Hxy.
Qed.

(** Filtering commutes with the sort. *)
Lemma filter_sort_by_key (l : list A) :
  filter P (sort_by_key key l) = sort_by_key key (filter P l).
Proof.
  induction l as [|x l IH]; simpl; [reflexivity|].
  rewrite filter_insert_by_key by apply sort_by_key_sorted.
  rewrite filter_cons, IH. now destruct (decide (P x)).
Qed.

End SortFilter.

Section Reads.

Variable today : date.

Lemma calculate_raises (s : string) (e : exn) :
  calculate_days_until_birthday today s = Raise e ->
  exists msg, e = ValueError msg.
Proof.
  assert (Hnew : forall y m d e', date_new y m d = Raise e' ->
                                  exists msg, e' = ValueError msg).
  { intros y m d e'. unfold date_new.
    repeat match goal with
           | |- context [if ?c then _ else _] => destruct c
           end; intros [= <-]; eauto. }
  unfold calculate_days_until_birthday.
  destruct (strptime_date s) as [birth|e'] eqn:Hs; simpl.
  - destruct (date_new (year today) (month birth) (day birth)) as [c|e']
      eqn:Hc; simpl; [|intros [= <-]; now apply Hnew in Hc].
    destruct (date_lt c today); simpl; [|discriminate].
    destruct (date_new (year today + 1) (month birth) (day birth)) as [c'|e']
      eqn:Hn; simpl; [discriminate|intros [= <-]; now apply Hnew in Hn].
  - intros [= <-]. now apply strptime_date_raises in Hs.
Qed.

(** The loop, when it ends well, has appended one dict for each row. *)
Lemma for_row_in_Ok_inv (rs : list Row) (acc l : list member_dict) :
  for_row_in today rs acc = Ok l ->
  exists all, l = acc ++ all /\ Forall2 (augments today) rs all.
Proof.
  revert acc. induction rs as [|r rs IH]; intros acc; simpl.
  - intros [= <-]. exists []. split; [now rewrite app_nil_r|constructor].
  - destruct (calculate_days_until_birthday today (birth_date r)) as [n|e]
      eqn:Hn; simpl; [|discriminate].
    intros H. destruct (IH _ H) as (all & -> & Hall).
    exists (mk_member_dict r n :: all). rewrite <- app_assoc.
    split; [reflexivity|]. constructor; [now split|exact Hall].
Qed.

Lemma list_members_plain (st : Store) (l : list member_dict) :
  list_members today st false false = Ok l ->
  Forall2 (augments today) (rows st) l.
Proof.
  unfold list_members.
  destruct (for_row_in today (rows st) []) as [members|e] eqn:H; simpl;
    [|discriminate].
  intros [= <-]. now destruct (for_row_in_Ok_inv _ _ _ H) as (all & -> & Hall).
Qed.

Lemma Forall2_elem_r {X Y} (R : X -> Y -> Prop) (l : list X) (k : list Y)
    (y : Y) :
  Forall2 R l k -> y ∈ k -> exists x, x ∈ l /\ R x y.
Proof.
  induction 1 as [|x y' l k Hxy _ IH]; intros Hy.
  - now apply elem_of_nil in Hy.
  - apply elem_of_cons in Hy as [->|Hy].
    + exists x. split; [left|exact Hxy].
    + destruct (IH Hy) as (x' & Hx' & HR). exists x'. split; [now right|exact HR].
Qed.

Lemma Forall2_elem_l {X Y} (R : X -> Y -> Prop) (l : list X) (k : list Y)
    (x : X) :
  Forall2 R l k -> x ∈ l -> exists y, y ∈ k /\ R x y.
Proof.
  induction 1 as [|x' y l k Hxy _ IH]; intros Hx.
  - now apply elem_of_nil in Hx.
  - apply elem_of_cons in Hx as [->|Hx].
    + exists y. split; [left|exact Hxy].
    + destruct (IH Hx) as (y' & Hy' & HR). exists y'. split; [now right|exact HR].
Qed.

(** In a table in order a row is the one found under its id. *)
Lemma SELECT_by_id_row (st : Store) (r : Row) :
  store_ok st -> r ∈ rows st -> SELECT_by_id st (id r) = Some r.
Proof.
  intros [Hs _]. unfold SELECT_by_id.
  induction Hs as [|x l Hs IH Hx]; intros Hr.
  - now apply elem_of_nil in Hr.
  - simpl. apply elem_of_cons in Hr as [->|Hr].
    + now rewrite Z.eqb_refl.
    + rewrite Forall_forall in Hx. specialize (Hx r Hr). simpl in Hx.
      replace (id x =? id r) with false by (symmetry; apply Z.eqb_neq; lia).
      now apply IH.
Qed.

Lemma find_app_miss (rs : list Row) (r : Row) (i : Z) :
  id r <> i ->
  List.find (fun x => id x =? i) (rs ++ [r])
  = List.find (fun x => id x =? i) rs.
Proof.
  intros Hne. induction rs as [|x rs IH]; simpl.
  - apply Z.eqb_neq in Hne. now rewrite Hne.
  - destruct (id x =? i); [reflexivity|exact IH].
Qed.

End Reads.

(** X10.  With [upcoming_only] the list operation answers what it answers
    without, filtered to the values of at most 30, whether it sorts or
    not: the same error, or the kept dicts in the order they have in the
    full answer. *)
Theorem upcoming_only_filters_the_answer (today : date) (st : Store)
    (sort_by_birthday : bool) :
  list_members today st sort_by_birthday true
  = (l ← list_members today st sort_by_birthday false;
     Ok (filter (fun m => days_until_birthday m <= 30) l))
  /\ (forall l0 l1,
        list_members today st sort_by_birthday false = Ok l0 ->
        list_members today st sort_by_birthday true = Ok l1 ->
        l1 `sublist_of` l0).
Proof.
  assert (Heq : list_members today st sort_by_birthday true
    = (l ← list_members today st sort_by_birthday false;
       Ok (filter (fun m => days_until_birthday m <= 30) l))).
  { unfold list_members.
    destruct (for_row_in today (rows st) []) as [members|e]; simpl;
      [|reflexivity].
    destruct sort_by_birthday; simpl; [|reflexivity].
    now rewrite filter_sort_by_key. }
  split; [exact Heq|].
  intros l0 l1 H0 H1. rewrite Heq, H0 in H1. simpl in H1.
  injection H1 as <-. apply sublist_filter.
Qed.

(** X11.  On a table in order, whose plain list the list operation
    returns, the members listed are exactly those the get operation
    returns under their ids, with the same days until the birthday; and
    for an id that is an integer of SQLite the get operation answers 404
    exactly when no row has it. *)
Theorem get_member_agrees_with_list (today : date) (st : Store)
    (l : list member_dict) :
  store_ok st ->
  list_members today st false false = Ok l ->
  (forall m, m ∈ l <-> get_member today st (id (row m)) = Ok m)
  /\ (forall i,
        sqlite_integer i ->
        get_member today st i = Raise (HTTPException 404 "Member not found")
        <-> ~ In i (map id (rows st))).
Proof.
  intros Hok Hl. apply list_members_plain in Hl. split.
  - intros m. split.
    + intros Hm.
      destruct (Forall2_elem_r _ _ _ _ Hl Hm) as (r & Hr & Hrow & Hcalc).
      unfold get_member. rewrite Hrow.
      rewrite (SELECT_by_id_row st r Hok Hr), Hcalc. simpl.
      destruct m; simpl in *. now subst.
    + unfold get_member.
      destruct (SELECT_by_id st (id (row m))) as [r|] eqn:Hsel;
        [|discriminate].
      destruct (calculate_days_until_birthday today (birth_date r)) as [n|e]
        eqn:Hn; simpl; [|discriminate].
      intros [= <-]. apply find_some in Hsel as [Hin _].
      apply list_elem_of_In in Hin.
      destruct (Forall2_elem_l _ _ _ _ Hl Hin) as (m' & Hm' & Hrow & Hcalc).
      rewrite Hn in Hcalc. injection Hcalc as ->.
      destruct m'; simpl in *. now subst.
  - intros i _. unfold get_member, SELECT_by_id. split.
    + destruct (List.find (fun r => id r =? i) (rows st)) as [r|] eqn:Hf.
      * destruct (calculate_days_until_birthday today (birth_date r)) as [n|e]
          eqn:Hn; simpl; [discriminate|].
        destruct (calculate_raises today _ _ Hn) as [msg ->]. discriminate.
      * intros _ Hin. apply in_map_iff in Hin as (r & Hid & Hr).
        pose proof (find_none _ _ Hf r Hr) as Hno. simpl in Hno.
        apply Z.eqb_neq in Hno. contradiction.
    + intros Hnot.
      destruct (List.find (fun r => id r =? i) (rows st)) as [r|] eqn:Hf;
        [|reflexivity].
      apply find_some in Hf as [Hin Hid]. apply Z.eqb_eq in Hid.
      exfalso. apply Hnot. apply in_map_iff. now exists r.
Qed.

Lemma get_member_agrees_with_list_witness :
  get_member (mkdate 2026 11 3) (seed_data (fun _ => "t0") init_db) 3
  = Ok (mk_member_dict
          (mkRow 3 "Hans" "Mueller" "1992-11-08" "Germany" "Berlin" "t0") 5)
  /\ get_member (mkdate 2026 11 3) (seed_data (fun _ => "t0") init_db) 99999
     = Raise (HTTPException 404 "Member not found").
Proof.
  destruct (list_members (mkdate 2026 11 3)
              (seed_data (fun _ => "t0") init_db) false false)
    as [l|e] eqn:Hl; [|vm_compute in Hl; discriminate Hl].
  destruct (get_member_agrees_with_list (mkdate 2026 11 3)
              (seed_data (fun _ => "t0") init_db) l
              (seed_data_ok _ _ init_db_ok) Hl) as [Hget H404].
  split.
  - apply (Hget (mk_member_dict
             (mkRow 3 "Hans" "Mueller" "1992-11-08" "Germany" "Berlin" "t0")
             5)).
    vm_compute in Hl. injection Hl as <-.
    do 2 right. left.
  - apply H404; [unfold sqlite_integer; lia|]. vm_compute. intros H.
    repeat (destruct H as [H|H]; [discriminate H|]). exact H.
Defined.

(** X12.  After a create that succeeded, the get operation finds the new
    row under the id the answer carries, with the fields and the time of
    the request, and computes its days from the birth date as given; every
    other id is looked up as before the create. *)
Theorem create_then_get (today : date) (now : string) (st st' : Store)
    (body : Member.t) (c : created) :
  POST_members today now st body = (Ok c, st') ->
  let r := new_row st body now in
  SELECT_by_id st' (lastrowid c) = Some r
  /\ key_of_row r = key_of body
  /\ birth_date r = Member.birth_date body
  /\ created_at r = now
  /\ (forall later,
        get_member later st' (lastrowid c)
        = (days ← calculate_days_until_birthday later (Member.birth_date body);
           Ok (mk_member_dict r days)))
  /\ (forall i, i <> lastrowid c -> SELECT_by_id st' i = SELECT_by_id st i).
Proof.
  intros Hp r. apply POST_members_Ok_inv in Hp as (_ & _ & -> & ->).
  cbn [lastrowid]. subst r. set (r := new_row st body now).
  assert (Hsel : SELECT_by_id
                   (mkStore (rows st ++ [r]) (id r)) (id r) = Some r).
  { unfold SELECT_by_id. cbn [rows]. apply find_fresh_at_end.
    apply new_row_id_fresh. }
  split; [exact Hsel|]. repeat split.
  - intros later. unfold get_member. now rewrite Hsel.
  - intros i Hi. unfold SELECT_by_id. cbn [rows].
    apply find_app_miss. congruence.
Qed.

Lemma create_then_get_witness :
  get_member (mkdate 2027 1 1)
    (snd (POST_members (mkdate 2026 11 3) "t1"
            (seed_data (fun _ => "t0") init_db)
            (Member.mk "Test" "User" "1990-01-30" "USA" "Boston"))) 7
  = Ok (mk_member_dict
          (mkRow 7 "Test" "User" "1990-01-30" "USA" "Boston" "t1") 29).
Proof.
  pose proof (create_then_get (mkdate 2026 11 3) "t1"
                (seed_data (fun _ => "t0") init_db) _
                (Member.mk "Test" "User" "1990-01-30" "USA" "Boston") _
                eq_refl) as (_ & _ & _ & _ & H & _).
  exact (H (mkdate 2027 1 1)).
Defined.

(** ** More on the messages *)

Section Texts.

Lemma length_append (a b : string) :
  String.length (a +:+ b) = (String.length a + String.length b)%nat.
Proof.
  induction a as [|c a IH]; [reflexivity|].
  change (S (String.length (a +:+ b))
          = S (String.length a + String.length b)).
  now rewrite IH.
Qed.

Lemma contains_append_r (t s q : string) :
  contains t s -> contains (t +:+ q) s.
Proof.
  intros (a & b & ->). exists a, (b +:+ q). now rewrite !append_assoc.
Qed.

(** A text that does not begin with white space. *)
Lemma lstrip_fixed (s : string) :
  match s with
  | EmptyString => True
  | String c _ => isspace c = false
  end ->
  lstrip s = s.
Proof. destruct s as [|c r]; simpl; [trivial|]. now intros ->. Qed.

Lemma lstrip_head (s : string) :
  match lstrip s with
  | EmptyString => True
  | String c _ => isspace c = false
  end.
Proof.
  induction s as [|c r IH]; simpl; [trivial|].
  destruct (isspace c) eqn:E; [exact IH|exact E].
Qed.

Lemma rstrip_head (s : string) :
  match s with
  | EmptyString => True
  | String c _ => isspace c = false
  end ->
  match rstrip s with
  | EmptyString => True
  | String c _ => isspace c = false
  end.
Proof.
  destruct s as [|c r]; simpl; [trivial|]. intros E.
  destruct (rstrip r); [now rewrite E|exact E].
Qed.

Lemma rstrip_idempotent (s : string) : rstrip (rstrip s) = rstrip s.
Proof.
  induction s as [|c r IH]; simpl; [reflexivity|].
  destruct (rstrip r) as [|c' r'] eqn:E.
  - destruct (isspace c) eqn:Ec; simpl; [reflexivity|now rewrite Ec].
  - simpl in IH. simpl. now rewrite IH.
Qed.

(** Stripping a stripped text changes nothing. *)
Lemma strip_idempotent (s : string) : strip (strip s) = strip s.
Proof.
  unfold strip.
  rewrite (lstrip_fixed (rstrip (lstrip s)))
    by apply rstrip_head, lstrip_head.
  apply rstrip_idempotent.
Qed.

Lemma concat_contains (sep x : string) (l : list string) :
  In x l -> contains (String.concat sep l) x.
Proof.
  induction l as [|y l IH]; [intros []|].
  intros [->|Hin].
  - destruct l as [|z l]; simpl.
    + exists "", "". now rewrite append_empty_r.
    + apply contains_prefix.
  - destruct l as [|z l]; [destruct Hin|].
    change (contains (y +:+ sep +:+ String.concat sep (z :: l)) x).
    do 2 apply contains_append_l. now apply IH.
Qed.

End Texts.

(** X13.  Whatever the strategy, the explanation of a message the
    generator returns has a rationale of more than 20 characters that
    names the tone and the member's country, and records the tone under
    its parameters.  With the template strategy the message names the
    member by first name, whatever the tone, and the language recorded is
    one of the five codes of the table, "en" for a country the table does
    not list. *)
Theorem explanation_shape (MOCK_AI : bool) (OPENAI_API_KEY : string)
    (ChatCompletion_create : string -> completion) (member : Row)
    (tone : string) (bm : BirthdayMessage.t) :
  generate_ai_message MOCK_AI OPENAI_API_KEY ChatCompletion_create
    member tone = Ok bm ->
  let e := BirthdayMessage.explanation bm in
  (20 < String.length (rationale e))%nat
  /\ contains (rationale e) tone
  /\ contains (rationale e) (country member)
  /\ parameters e !! "tone" = Some (PStr tone)
  /\ (MOCK_AI || String.eqb OPENAI_API_KEY "" = true ->
      contains (BirthdayMessage.message bm) (first_name member)
      /\ exists lang,
           parameters e !! "language" = Some (PStr lang)
           /\ In lang ["en"; "de"; "ja"; "pt"; "hi"]
           /\ (COUNTRY_LANGUAGES !! country member = None -> lang = "en")).
Proof.
  unfold generate_ai_message.
  destruct (MOCK_AI || String.eqb OPENAI_API_KEY "") eqn:Hmode.
  - intros [= <-]. cbn [BirthdayMessage.explanation BirthdayMessage.message
                         rationale parameters].
    split; [rewrite length_append; simpl; lia|].
    split; [apply contains_append_l, contains_prefix|].
    split; [do 4 apply contains_append_l; apply contains_prefix|].
    split; [apply lookup_insert_eq|]. intros _. split.
    + unfold get, tone_templates.
      rewrite lookup_insert, lookup_singleton, lookup_total_insert_eq.
      repeat case_decide; simpl;
        first [ apply contains_append_l, contains_prefix
              | apply contains_append_l, contains_middle ].
    + eexists. split.
      * rewrite lookup_insert_ne by discriminate. apply lookup_singleton_eq.
      * unfold get, COUNTRY_LANGUAGES.
        rewrite !lookup_insert, lookup_singleton.
        repeat case_decide; simpl; split; auto 10; discriminate.
  - destruct (ChatCompletion_create _); [|discriminate].
    intros [= <-]. cbn [BirthdayMessage.explanation rationale parameters].
    split; [rewrite length_append; simpl; lia|].
    split; [apply contains_append_l, contains_prefix|].
    split; [do 4 apply contains_append_l; apply contains_prefix|].
    split; [|discriminate].
    rewrite lookup_insert_ne by discriminate. apply lookup_insert_eq.
Qed.

Lemma explanation_shape_witness :
  exists bm,
    generate_ai_message true "sk-test" (fun _ => Failed "unreachable")
      (mkRow 3 "Hans" "Mueller" "1992-11-08" "Germany" "Berlin" "t0")
      "formal" = Ok bm
    /\ (20 < String.length (rationale (BirthdayMessage.explanation bm)))%nat
    /\ contains (BirthdayMessage.message bm) "Hans".
Proof.
  eexists. split; [reflexivity|].
  destruct (explanation_shape true "sk-test" (fun _ => Failed "unreachable")
              (mkRow 3 "Hans" "Mueller" "1992-11-08" "Germany" "Berlin" "t0")
              "formal" _ eq_refl) as (H1 & _ & _ & _ & H2).
  split; [exact H1|]. exact (proj1 (H2 eq_refl)).
Defined.

(** X14.  With the generative strategy the generator asks the
    collaborator once, with a prompt that names the member, the city, the
    country and the tone; an answer becomes the message with the white
    space around it removed, so that stripping it again changes nothing,
    and a failure becomes the error 500 that carries the failure's text,
    which is answered as a server error and not as a client error. *)
Theorem generative_outcomes (MOCK_AI : bool) (OPENAI_API_KEY : string)
    (ChatCompletion_create : string -> completion) (member : Row)
    (tone : string) :
  MOCK_AI || String.eqb OPENAI_API_KEY "" = false ->
  let answer :=
    generate_ai_message MOCK_AI OPENAI_API_KEY ChatCompletion_create
      member tone in
  exists prompt,
    contains prompt (first_name member +:+ " " +:+ last_name member)
    /\ contains prompt (city member +:+ ", " +:+ country member)
    /\ contains prompt ("- Tone: " +:+ tone)
    /\ match ChatCompletion_create prompt with
       | Content text =>
           exists bm,
             answer = Ok bm
             /\ BirthdayMessage.message bm = strip text
             /\ strip (BirthdayMessage.message bm) = BirthdayMessage.message bm
             /\ model (BirthdayMessage.explanation bm) = "gpt-3.5-turbo"
       | Failed text =>
           answer
           = Raise (HTTPException 500 ("AI generation failed: " +:+ text))
           /\ respond 200 answer
              = ErrorReply 500 ("AI generation failed: " +:+ text)
           /\ ~ is_client_error (respond 200 answer)
       end.
Proof.
  intros Hmode answer. unfold answer, generate_ai_message. rewrite Hmode.
  match goal with
  | |- context [ChatCompletion_create ?p] => exists p
  end.
  split; [|split; [|split]].
  4: { destruct (ChatCompletion_create _) as [text|text].
       - eexists. split; [reflexivity|]. cbn [BirthdayMessage.message].
         split; [reflexivity|]. split; [apply strip_idempotent|reflexivity].
       - split; [reflexivity|]. split; [reflexivity|]. simpl. lia. }
  - do 3 apply contains_append_l.
    exists "", (nl +:+ "- Location: " +:+ city member +:+ ", "
                +:+ country member +:+ nl +:+ "- Tone: " +:+ tone +:+ nl
                +:+ "- Language preference: "
                +:+ get COUNTRY_LANGUAGES (country member) "en"
                +:+ nl +:+ nl
                +:+ "Create a warm, personal birthday message (2-3 sentences max) that reflects the specified tone.").
    now rewrite !append_assoc.
  - do 8 apply contains_append_l.
    exists "", (nl +:+ "- Tone: " +:+ tone +:+ nl
                +:+ "- Language preference: "
                +:+ get COUNTRY_LANGUAGES (country member) "en"
                +:+ nl +:+ nl
                +:+ "Create a warm, personal birthday message (2-3 sentences max) that reflects the specified tone.").
    now rewrite !append_assoc.
  - do 12 apply contains_append_l.
    exists "", (nl +:+ "- Language preference: "
                +:+ get COUNTRY_LANGUAGES (country member) "en"
                +:+ nl +:+ nl
                +:+ "Create a warm, personal birthday message (2-3 sentences max) that reflects the specified tone.").
    now rewrite !append_assoc.
Qed.

Lemma generative_outcomes_witness :
  generate_ai_message false "sk-test" (fun _ => Failed "quota exceeded")
    (mkRow 3 "Hans" "Mueller" "1992-11-08" "Germany" "Berlin" "t0") "formal"
  = Raise (HTTPException 500 "AI generation failed: quota exceeded").
Proof.
  destruct (generative_outcomes false "sk-test"
              (fun _ => Failed "quota exceeded")
              (mkRow 3 "Hans" "Mueller" "1992-11-08" "Germany" "Berlin" "t0")
              "formal" eq_refl) as (prompt & _ & _ & _ & H).
  exact (proj1 H).
Defined.

(** X15.  The detail of a 422 answer names every validation error of the
    request: for each error it holds the field path, joined with " -> ",
    a colon and the message. *)
Theorem validation_detail_names_every_error
    (errors : list (list string * string)) (loc : list string)
    (msg : string) :
  In (loc, msg) errors ->
  respond 201 (Raise (RequestValidationError errors) : result created)
  = ErrorReply 422 (validation_detail errors)
  /\ contains (validation_detail errors) (join " -> " loc +:+ ": " +:+ msg).
Proof.
  intros Hin. split; [reflexivity|].
  unfold validation_detail, join. apply concat_contains.
  apply in_map_iff. exists (loc, msg). split; [reflexivity|exact Hin].
Qed.

Lemma validation_detail_names_every_error_witness :
  contains
    (validation_detail
       [ (["body"; "birth_date"], "Value error, Birth date must be in YYYY-MM-DD format");
         (["query"; "tone"], "String should match pattern '^(friendly|formal)$'") ])
    ("query -> tone: String should match pattern '^(friendly|formal)$'").
Proof.
  apply (validation_detail_names_every_error
           [ (["body"; "birth_date"], "Value error, Birth date must be in YYYY-MM-DD format");
             (["query"; "tone"], "String should match pattern '^(friendly|formal)$'") ]
           ["query"; "tone"]
           "String should match pattern '^(friendly|formal)$'").
  right. left. reflexivity.
Defined.

(** ** Unknown ids *)

Lemma SELECT_by_id_None (st : Store) (i : Z) :
  SELECT_by_id st i = None <-> (forall r, In r (rows st) -> id r <> i).
Proof.
  unfold SELECT_by_id. induction (rows st) as [|x l IH]; simpl.
  - split; [intros _ r []|reflexivity].
  - destruct (id x =? i) eqn:E.
    + split; [discriminate|]. intros H. apply Z.eqb_eq in E.
      destruct (H x (or_introl eq_refl) E).
    + apply Z.eqb_neq in E. rewrite IH. split.
      * intros H r [<-|Hr]; [exact E|now apply H].
      * intros H r Hr. apply H. now right.
Qed.

(** X16.  For a member id that is an integer of SQLite, the three routes
    that take one answer 404 "Member not found" exactly when no row of
    the table has that id, whatever the date, the tone, the dry-run flag,
    the configuration and the collaborator; the send route then prints
    nothing.  No other failure of these routes is a 404. *)
Theorem not_found_iff_no_such_row (MOCK_AI : bool) (OPENAI_API_KEY : string)
    (ChatCompletion_create : string -> completion) (today : date)
    (st : Store) (member_id : Z) (tone : string) (dry_run : bool) :
  sqlite_integer member_id ->
  let absent := forall r, In r (rows st) -> id r <> member_id in
  let not_found := HTTPException 404 "Member not found" in
  (absent <-> get_member today st member_id = Raise not_found)
  /\ (absent <->
      generate_birthday_message MOCK_AI OPENAI_API_KEY ChatCompletion_create
        st member_id tone = Raise not_found)
  /\ (absent <->
      fst (send_birthday_email MOCK_AI OPENAI_API_KEY ChatCompletion_create
             st member_id tone dry_run) = Raise not_found)
  /\ (absent ->
      snd (send_birthday_email MOCK_AI OPENAI_API_KEY ChatCompletion_create
             st member_id tone dry_run) = []).
Proof.
  intros _ absent not_found. unfold absent.
  rewrite <- (SELECT_by_id_None st member_id).
  unfold get_member, generate_birthday_message, send_birthday_email.
  destruct (SELECT_by_id st member_id) as [r|].
  - split; [|split; [|split]]; try (split; [discriminate|]);
      try discriminate.
    + destruct (calculate_days_until_birthday today (birth_date r))
        as [n|e] eqn:E; simpl; [discriminate|].
      apply calculate_raises in E as [msg ->]. discriminate.
    + intros E.
      apply generate_ai_message_raises in E as [text E]. discriminate.
    + destruct (generate_ai_message _ _ _ r tone) as [bm|e] eqn:E.
      * destruct dry_run; discriminate.
      * apply generate_ai_message_raises in E as [text ->]. discriminate.
  - repeat split; reflexivity.
Qed.

Lemma not_found_iff_no_such_row_witness :
  get_member (mkdate 2026 11 3) (seed_data (fun _ => "t0") init_db) 99999
  = Raise (HTTPException 404 "Member not found")
  /\ send_birthday_email true "" (fun _ => Failed "unreachable")
       (seed_data (fun _ => "t0") init_db) 99999 "formal" false
     = (Raise (HTTPException 404 "Member not found"), []).
Proof.
  assert (Hrange : sqlite_integer 99999) by (unfold sqlite_integer; lia).
  assert (Habsent : forall r,
            In r (rows (seed_data (fun _ => "t0") init_db)) ->
            id r <> 99999).
  { vm_compute. intros r H.
    repeat (destruct H as [<-|H]; [discriminate|]). destruct H. }
  destruct (not_found_iff_no_such_row true "" (fun _ => Failed "unreachable")
              (mkdate 2026 11 3) (seed_data (fun _ => "t0") init_db) 99999
              "formal" false Hrange) as (Hget & _ & Hsend & Hprint).
  split; [exact (proj1 Hget Habsent)|].
  apply injective_projections; simpl;
    [exact (proj1 Hsend Habsent)|exact (Hprint Habsent)].
Defined.

(** ** The age in days *)

Section AgeInDays.

(** Eighteen years in a row hold at least three leap days. *)
Lemma days_before_year_18 (a : Z) :
  1 <= a -> 6573 <= _days_before_year (a + 18) - _days_before_year a.
Proof.
  intros Ha. unfold _days_before_year. Z.div_mod_to_equations. lia.
Qed.

(** The ordinal counted from the year that holds the end of February. *)
Lemma ymd2ord_split (y m d : Z) :
  1 <= y -> 1 <= m <= 12 ->
  _ymd2ord y m d
  = (if m <=? 2 then _days_before_year y
     else _days_before_year (y + 1) - 365)
    + nth (Z.to_nat m) _DAYS_BEFORE_MONTH 0 + d.
Proof.
  intros Hy Hm. rewrite days_before_year_succ by assumption.
  unfold _ymd2ord, _days_before_month.
  destruct (month_cases m Hm) as
    [->|[->|[->|[->|[->|[->|[->|[->|[->|[->|[->| ->]]]]]]]]]]];
    destruct (_is_leap y); simpl; lia.
Qed.

(** Within a year the ordinal follows the order of [(month, day)], also
    for the 29 February of another year. *)
Lemma ymd2ord_le_in_year (y y' m d m' d' : Z) :
  1 <= m <= 12 -> d <= _days_in_month y' m ->
  1 <= m' <= 12 -> 1 <= d' ->
  pair_lt (m', d') (m, d) = false ->
  _ymd2ord y m d <= _ymd2ord y m' d'.
Proof.
  intros Hm Hd Hm' Hd' Hlt. unfold pair_lt in Hlt. simpl in Hlt.
  assert (Hcmp : m < m' \/ (m = m' /\ d <= d')).
  { apply orb_false_iff in Hlt as [H1 H2]. apply Z.ltb_ge in H1.
    apply andb_false_iff in H2 as [H2|H2]; [apply Z.eqb_neq in H2; lia|].
    apply Z.ltb_ge in H2. lia. }
  clear Hlt. unfold _ymd2ord, _days_before_month.
  unfold _days_in_month in Hd.
  destruct Hcmp as [Hcmp|[<- Hcmp]]; [|lia].
  destruct (month_cases m Hm) as
    [->|[->|[->|[->|[->|[->|[->|[->|[->|[->|[->| ->]]]]]]]]]]];
    destruct (month_cases m' Hm') as
    [->|[->|[->|[->|[->|[->|[->|[->|[->|[->|[->| ->]]]]]]]]]]];
    try lia;
    destruct (_is_leap y), (_is_leap y'); simpl in *; lia.
Qed.

(** From the age in years to the age in days. *)
Lemma age_18_in_days (today birth : date) :
  date_ok today -> date_ok birth ->
  18 <= Member.age today birth ->
  6573 <= date_sub_days today birth.
Proof.
  intros Ht Hb Hage.
  assert (Hnot : date_lt today
                   (mkdate (year birth + 18) (month birth) (day birth))
                 = false).
  { destruct (date_lt today _) eqn:E; [|reflexivity].
    apply age_below_18_iff in E. lia. }
  apply date_lt_false_iff in Hnot. simpl in Hnot.
  apply date_ok_fields in Ht as (Hyt & Hmt & Hdt).
  apply date_ok_fields in Hb as (Hyb & Hmb & Hdb).
  unfold date_sub_days, toordinal.
  pose proof (days_before_year_18 (year birth)) as H18.
  pose proof (days_before_year_18 (year birth + 1)) as H19.
  replace (year birth + 1 + 18) with (year birth + 19) in H19 by lia.
  destruct Hnot as [Hy|[Hy Hmd]].
  - pose proof (ymd2ord_in_year _ _ _ (proj1 Hyt) Hmt Hdt) as Ht.
    pose proof (ymd2ord_in_year _ _ _ (proj1 Hyb) Hmb Hdb) as Hb.
    destruct (Z.eq_dec (year birth + 19) (year today)) as [E|E].
    + rewrite E in H19. lia.
    + pose proof (days_before_year_mono (year birth + 19) (year today)). lia.
  - assert (Hle : _ymd2ord (year today) (month birth) (day birth)
                  <= _ymd2ord (year today) (month today) (day today)).
    { apply (ymd2ord_le_in_year (year today) (year birth)); try lia.
      unfold pair_lt. simpl.
      apply orb_false_iff. split; [apply Z.ltb_ge; lia|].
      destruct (Z.eqb_spec (month today) (month birth)) as [E|E];
        [|reflexivity].
      simpl. apply Z.ltb_ge. lia. }
    rewrite Hy in Hle.
    rewrite (ymd2ord_split (year birth + 18)) in Hle by lia.
    rewrite (ymd2ord_split (year birth) (month birth)) by lia.
    rewrite Hy.
    replace (year birth + 18 + 1) with (year birth + 19) in Hle by lia.
    destruct (month birth <=? 2); lia.
Qed.

End AgeInDays.

(** X17.  A member the validator accepts was born at least 6573 days
    (eighteen years of 365 days and three leap days) before today; a
    birth date that parses and is fewer days back, such as the date 3650
    days before today of the test of the underage member, is refused with
    the underage error, whose text holds "18 years old". *)
Theorem adult_is_6573_days_old (today birth : date) (v : string) :
  date_ok today ->
  strptime_date v = Ok birth ->
  (Member.validate_birth_date today v = Ok v ->
   6573 <= date_sub_days today birth)
  /\ (date_sub_days today birth < 6573 ->
      exists detail,
        Member.validate_birth_date today v = Raise (ValueError detail)
        /\ contains detail "18 years old"
        /\ contains detail (str (Member.age today birth))).
Proof.
  intros Ht Hs. pose proof (strptime_date_ok v birth Hs) as Hb.
  pose proof (age_18_in_days today birth Ht Hb) as Hdays.
  unfold Member.validate_birth_date. rewrite Hs.
  destruct (Z.ltb_spec (Member.age today birth) 18) as [Hlt|Hge].
  - split; [discriminate|]. intros _. eexists. split; [reflexivity|].
    split.
    + apply contains_append_r.
      exists "Member must be at least ", ". Current age would be ".
      reflexivity.
    + apply contains_suffix.
  - split; [intros _; now apply Hdays|]. intros Hless.
    specialize (Hdays Hge). lia.
Qed.

Lemma adult_is_6573_days_old_witness :
  exists detail,
    Member.validate_birth_date (mkdate 2026 11 3) "2016-11-05"
    = Raise (ValueError detail)
    /\ contains detail "18 years old".
Proof.
  destruct (proj2 (adult_is_6573_days_old (mkdate 2026 11 3)
                     (mkdate 2016 11 5) "2016-11-05" eq_refl eq_refl))
    as (detail & H1 & H2 & _).
  - vm_compute. reflexivity.
  - exists detail. split; [exact H1|exact H2].
Defined.
